(** * ReactAIAgent: the task executor and the agent control loop

    A shallow embedding of the agent script (the [while (true)] version of
    the control loop together with the task functions it dispatches to)
    and the properties of it that the specification states.

    Modelling conventions.
    - A JavaScript string is carried as a Rocq [string]: the bytes of its
      UTF-8 encoding. The strings of the model are well-formed text, which
      [fs] writes and reads back byte for byte; a string with an unpaired
      surrogate, which the [utf8] encoder would change, has no such
      encoding and is not among them ([Str.isWellFormed] tells the byte
      strings that carry a JavaScript string).
    - A value produced by [JSON.parse] is a [json] tree; [undefined] is the
      [None] of [option json].
    - An absolute, normalised POSIX path [/a/b] is carried as the list of its
      components [["a"; "b"]]; the root [/] is [[]].
    - The filesystem is a tree of directories and regular files, all of
      them open to the process (no links, no permissions, no quota); a
      directory maps entry names to nodes. The limits of the operating
      system on the length of a name and of a path are kept.
    - Terminal styling ([chalk]) is dropped; what is printed is kept, in
      order, in the [console] of the world.
    - The three suspension points of the script ([rl.question], the
      completion request, [child_process.exec]) are the events of a
      transition system; the environment chooses their outcomes. *)

From Stdlib Require Import String Ascii List ZArith Lia Bool.
From stdpp Require Import base option strings gmap list.
Import ListNotations.
Open Scope string_scope.
Set Warnings "-register-all".

(** ** Strings *)

Module Str.

(** [s.startsWith(p)] *)
Fixpoint startsWith (p s : string) : bool :=
  match p, s with
  | EmptyString, _ => true
  | String a p', String b s' => if Ascii.eqb a b then startsWith p' s' else false
  | String _ _, EmptyString => false
  end.

(** [s.includes(needle)] *)
Fixpoint includes (needle s : string) : bool :=
  startsWith needle s ||
  match s with
  | EmptyString => false
  | String _ s' => includes needle s'
  end.

(** [s.split(sep)] for a one-character separator: never empty, the empty
    string splits into one empty piece. *)
Fixpoint split (sep : ascii) (s : string) : list string :=
  match s with
  | EmptyString => [EmptyString]
  | String c s' =>
      if Ascii.eqb c sep then EmptyString :: split sep s'
      else match split sep s' with
           | h :: t => String c h :: t
           | [] => [String c EmptyString]
           end
  end.

(** Remove [p] from the front of [s] when it is there. *)
Fixpoint stripPrefix (p s : string) : option string :=
  match p, s with
  | EmptyString, _ => Some s
  | String a p', String b s' => if Ascii.eqb a b then stripPrefix p' s' else None
  | String _ _, EmptyString => None
  end.

Fixpoint rev (s : string) : string :=
  match s with
  | EmptyString => EmptyString
  | String c s' => rev s' ++ String c EmptyString
  end.

(** The code points ECMAScript's [trim] removes (WhiteSpace and
    LineTerminator), each as its UTF-8 bytes: U+0009..U+000D, U+0020,
    U+00A0, U+1680, U+2000..U+200A, U+2028, U+2029, U+202F, U+205F, U+3000,
    U+FEFF. *)
Definition b (n : nat) : ascii := ascii_of_nat n.
Definition b1 (x : nat) : string := String (b x) EmptyString.
Definition b2 (x y : nat) : string := String (b x) (b1 y).
Definition b3 (x y z : nat) : string := String (b x) (b2 y z).

Definition whiteSpace : list string :=
  [ b1 9; b1 10; b1 11; b1 12; b1 13; b1 32;
    b2 194 160;
    b3 225 154 128;
    b3 226 128 128; b3 226 128 129; b3 226 128 130; b3 226 128 131;
    b3 226 128 132; b3 226 128 133; b3 226 128 134; b3 226 128 135;
    b3 226 128 136; b3 226 128 137; b3 226 128 138;
    b3 226 128 168; b3 226 128 169; b3 226 128 175;
    b3 226 129 159;
    b3 227 128 128;
    b3 239 187 191 ].

(** One leading character out of [ws] removed, if [s] starts with one. *)
Fixpoint dropOne (ws : list string) (s : string) : option string :=
  match ws with
  | [] => None
  | w :: ws' =>
      match stripPrefix w s with
      | Some r => Some r
      | None => dropOne ws' s
      end
  end.

Fixpoint dropWhile (ws : list string) (fuel : nat) (s : string) : string :=
  match fuel with
  | O => s
  | S fuel' =>
      match dropOne ws s with
      | Some r => dropWhile ws fuel' r
      | None => s
      end
  end.

Definition trimStart (s : string) : string :=
  dropWhile whiteSpace (String.length s) s.

Definition trimEnd (s : string) : string :=
  rev (dropWhile (map rev whiteSpace) (String.length s) (rev s)).

(** [s.trim()] *)
Definition trim (s : string) : string := trimEnd (trimStart s).

Definition lowerChar (c : ascii) : ascii :=
  let n := nat_of_ascii c in
  if (65 <=? n)%nat && (n <=? 90)%nat then ascii_of_nat (n + 32) else c.

(** [s.toLowerCase()] on the letters A-Z.  No other character lowercases
    to one of the letters of [error], so the test the code makes on the
    result is the same as with the full Unicode mapping. *)
Fixpoint toLowerCase (s : string) : string :=
  match s with
  | EmptyString => EmptyString
  | String c s' => String (lowerChar c) (toLowerCase s')
  end.

Definition hasNul (s : string) : bool := includes (b1 0) s.

(** [s.isWellFormed()]: no unpaired surrogate.  The strings that have none
    are those with a UTF-8 encoding, so on the bytes this is whether they
    are well-formed UTF-8: one to four bytes a character, no overlong
    form, no surrogate, nothing above U+10FFFF. *)
Definition between (lo hi : nat) (c : ascii) : bool :=
  (lo <=? nat_of_ascii c)%nat && (nat_of_ascii c <=? hi)%nat.

Definition continuation (c : ascii) : bool := between 128 191 c.

Definition threeBytes (a b : ascii) : bool :=
  between 224 224 a && between 160 191 b
  || between 225 236 a && continuation b
  || between 237 237 a && between 128 159 b
  || between 238 239 a && continuation b.

Definition fourBytes (a b : ascii) : bool :=
  between 240 240 a && between 144 191 b
  || between 241 243 a && continuation b
  || between 244 244 a && between 128 143 b.

Fixpoint isWellFormed (s : string) : bool :=
  match s with
  | EmptyString => true
  | String a s1 =>
      if between 0 127 a then isWellFormed s1
      else
        match s1 with
        | EmptyString => false
        | String b s2 =>
            if between 194 223 a then continuation b && isWellFormed s2
            else
              match s2 with
              | EmptyString => false
              | String c s3 =>
                  if threeBytes a b then continuation c && isWellFormed s3
                  else
                    match s3 with
                    | EmptyString => false
                    | String d s4 =>
                        fourBytes a b && continuation c && continuation d
                        && isWellFormed s4
                    end
              end
        end
  end.

End Str.

(** ** JSON values *)

Inductive json :=
| JNull
| JBool (v : bool)
| JNum (repr : string)   (* a number, by its decimal rendering *)
| JStr (s : string)
| JArr (items : list json)
| JObj (fields : list (string * json)).

Module Js.

(** ToBoolean. A number out of [JSON.parse] is falsy only when it is zero. *)
Definition truthy (v : option json) : bool :=
  match v with
  | None => false
  | Some JNull => false
  | Some (JBool v) => v
  | Some (JNum r) => negb (String.eqb r "0")
  | Some (JStr s) => negb (String.eqb s "")
  | Some (JArr _) => true
  | Some (JObj _) => true
  end.

(** [v !== undefined] *)
Definition defined (v : option json) : bool :=
  match v with
  | Some _ => true
  | None => false
  end.

(** [a || b] *)
Definition or_else (a : option json) (b : json) : option json :=
  if truthy a then a else Some b.

Fixpoint assoc (k : string) (l : list (string * json)) : option json :=
  match l with
  | [] => None
  | (k', v) :: l' => if String.eqb k k' then Some v else assoc k l'
  end.

(** [v.k] for one of the names the script reads ([step], [fType], [fInput],
    [fContent]): reading a property of [null] throws, a primitive or an
    array has no such property, an object has it when it is among its
    fields. [None] is the TypeError, [Some None] is [undefined]. *)
Definition prop (v : json) (k : string) : option (option json) :=
  match v with
  | JNull => None
  | JObj fields => Some (assoc k fields)
  | _ => Some None
  end.

(** [a === 'lit'] *)
Definition is_str (v : option json) (lit : string) : bool :=
  match v with
  | Some (JStr s) => String.eqb s lit
  | _ => false
  end.

Definition join (sep : string) (l : list string) : string :=
  match l with
  | [] => ""
  | x :: r => fold_left (fun acc y => acc ++ sep ++ y) r x
  end.

(** ToString, as template literals, [chalk] and [includes] apply it. *)
Fixpoint ToString (v : json) : string :=
  match v with
  | JNull => "null"
  | JBool true => "true"
  | JBool false => "false"
  | JNum r => r
  | JStr s => s
  | JArr items =>
      join "," (map (fun x => match x with JNull => "" | _ => ToString x end) items)
  | JObj _ => "[object Object]"
  end.

Definition text (v : option json) : string :=
  match v with
  | Some v => ToString v
  | None => "undefined"
  end.

Definition hexDigit (n : nat) : ascii :=
  if (n <? 10)%nat then ascii_of_nat (48 + n) else ascii_of_nat (87 + n).

Definition dquote : string := String (ascii_of_nat 34) EmptyString.
Definition bslash : string := String (ascii_of_nat 92) EmptyString.

Definition escapeChar (c : ascii) : string :=
  let n := nat_of_ascii c in
  if (n =? 34)%nat then bslash ++ dquote
  else if (n =? 92)%nat then bslash ++ bslash
  else if (n =? 8)%nat then bslash ++ "b"
  else if (n =? 9)%nat then bslash ++ "t"
  else if (n =? 10)%nat then bslash ++ "n"
  else if (n =? 12)%nat then bslash ++ "f"
  else if (n =? 13)%nat then bslash ++ "r"
  else if (n <? 32)%nat then
    bslash ++ "u00" ++ String (hexDigit (n / 16)) (String (hexDigit (n mod 16)) EmptyString)
  else String c EmptyString.

Fixpoint escape (s : string) : string :=
  match s with
  | EmptyString => EmptyString
  | String c s' => escapeChar c ++ escape s'
  end.

Definition quote (s : string) : string := dquote ++ escape s ++ dquote.

(** [JSON.stringify(v)] of a value that came out of [JSON.parse]. *)
Fixpoint stringify (v : json) : string :=
  match v with
  | JNull => "null"
  | JBool true => "true"
  | JBool false => "false"
  | JNum r => r
  | JStr s => quote s
  | JArr items => "[" ++ join "," (map stringify items) ++ "]"
  | JObj fields =>
      "{" ++ join "," (map (fun kv => quote (fst kv) ++ ":" ++ stringify (snd kv)) fields) ++ "}"
  end.

End Js.

(** ** Exceptions and results *)

Inductive exn :=
| TypeError (what : string)
| SyntaxError (what : string)
| SystemError (code : string)
| ExecError (exit_code : Z)
| EndpointError.

Inductive result (A : Type) :=
| Ok (a : A)
| Throw (e : exn).
Arguments Ok {A} a.
Arguments Throw {A} e.

(** ** Paths ([path.resolve], [path.dirname], POSIX) *)

Module Path.

Definition isAbsolute (p : string) : bool := Str.startsWith "/" p.

Definition pushSegment (acc : list string) (seg : string) : list string :=
  if String.eqb seg "" || String.eqb seg "." then acc
  else if String.eqb seg ".." then removelast acc
  else acc ++ [seg].

Definition normalize (segs : list string) : list string :=
  fold_left pushSegment segs [].

(** [path.resolve(cur, p)] for an absolute [cur]. *)
Definition resolve (cur : list string) (p : string) : list string :=
  normalize ((if isAbsolute p then [] else cur) ++ Str.split "/" p).

(** [path.dirname] of a resolved path. *)
Definition dirname (p : list string) : list string := removelast p.

(** The text of a resolved path. *)
Definition show (p : list string) : string :=
  match p with
  | [] => "/"
  | _ => fold_left (fun acc c => acc ++ "/" ++ c) p ""
  end.

(** [fs] refuses a path that holds a NUL byte. *)
Definition nulFree (p : list string) : bool := forallb (fun c => negb (Str.hasNul c)) p.

(** The operating system (Linux) refuses a name of more than 255 bytes and
    a path of more than 4095 (4096 with its terminating NUL). *)
Definition nameTooLong (c : string) : bool := (255 <? String.length c)%nat.
Definition tooLong (p : list string) : bool := (4095 <? String.length (show p))%nat.
Definition namesFit (p : list string) : bool := forallb (fun c => negb (nameTooLong c)) p.

(** The paths that [fs] and the operating system accept. *)
Definition valid (p : list string) : bool :=
  nulFree p && negb (tooLong p) && namesFit p.

(** What a call of [fs] throws for a path that is not [valid]. *)
Definition refusal (p : list string) : exn :=
  SystemError (if nulFree p then "ENAMETOOLONG" else "ERR_INVALID_ARG_VALUE").

End Path.

Arguments Path.nameTooLong : simpl never.
Arguments Path.tooLong : simpl never.

(** ** The filesystem *)

Inductive node :=
| File (content : string)
| Dir (entries : gmap string node).

Module Fs.

Fixpoint lookup (t : node) (p : list string) : option node :=
  match p with
  | [] => Some t
  | c :: p' =>
      match t with
      | File _ => None
      | Dir es =>
          match es !! c with
          | Some t' => lookup t' p'
          | None => None
          end
      end
  end.

(** Whether [p], or a path it extends, names a regular file. *)
Fixpoint fileOnPath (t : node) (p : list string) : bool :=
  match t with
  | File _ => true
  | Dir es =>
      match p with
      | [] => false
      | c :: p' =>
          match es !! c with
          | Some t' => fileOnPath t' p'
          | None => false
          end
      end
  end.

(** [fs.existsSync(p)]: never throws. *)
Definition existsSync (t : node) (p : list string) : bool :=
  Path.valid p && bool_decide (is_Some (lookup t p)).

(** [fs.lstatSync(p).isDirectory()] *)
Definition isDirectory (t : node) (p : list string) : result bool :=
  if negb (Path.valid p) then Throw (Path.refusal p)
  else match lookup t p with
       | Some (Dir _) => Ok true
       | Some (File _) => Ok false
       | None => Throw (SystemError "ENOENT")
       end.

(** The directories of [p] made from the root down, as far as that goes:
    the tree afterwards, and what stopped the walk, if anything did (a
    regular file in the way, a name over the limit). The directories made
    before the stop stay. *)
Fixpoint mkdirp (t : node) (p : list string) : node * option exn :=
  match p with
  | [] =>
      match t with
      | Dir _ => (t, None)
      | File _ => (t, Some (SystemError "EEXIST"))
      end
  | c :: p' =>
      match t with
      | File _ => (t, Some (SystemError "ENOTDIR"))
      | Dir es =>
          if Path.nameTooLong c then (t, Some (SystemError "ENAMETOOLONG"))
          else
            let (t', stop) := mkdirp (default (Dir ∅) (es !! c)) p' in
            (Dir (<[c := t']> es), stop)
      end
  end.

(** [fs.mkdirSync(p, { recursive: true })]: the tree afterwards and the
    exception thrown, if any. *)
Definition mkdirSync (t : node) (p : list string) : node * option exn :=
  if negb (Path.nulFree p) then (t, Some (SystemError "ERR_INVALID_ARG_VALUE"))
  else if Path.tooLong p then (t, Some (SystemError "ENAMETOOLONG"))
  else mkdirp t p.

Fixpoint write (t : node) (p : list string) (content : string) : result node :=
  match p with
  | [] =>
      match t with
      | File _ => Ok (File content)
      | Dir _ => Throw (SystemError "EISDIR")
      end
  | c :: p' =>
      match t with
      | File _ => Throw (SystemError "ENOTDIR")
      | Dir es =>
          match es !! c with
          | Some t' =>
              match write t' p' content with
              | Ok t'' => Ok (Dir (<[c := t'']> es))
              | Throw e => Throw e
              end
          | None =>
              match p' with
              | [] => Ok (Dir (<[c := File content]> es))
              | _ :: _ => Throw (SystemError "ENOENT")
              end
          end
      end
  end.

(** [fs.writeFileSync(p, content, 'utf8')] *)
Definition writeFileSync (t : node) (p : list string) (content : string) : result node :=
  if negb (Path.valid p) then Throw (Path.refusal p)
  else write t p content.

(** [fs.readFileSync(p, 'utf8')] *)
Definition readFileSync (t : node) (p : list string) : result string :=
  if negb (Path.valid p) then Throw (Path.refusal p)
  else match lookup t p with
       | Some (File content) => Ok content
       | Some (Dir _) => Throw (SystemError "EISDIR")
       | None => Throw (SystemError "ENOENT")
       end.

(** The entry at [p] taken out of its directory; [None] when there is no
    such entry to take out (the root has no parent). *)
Fixpoint remove (t : node) (p : list string) : option node :=
  match p with
  | [] => None
  | c :: p' =>
      match t with
      | File _ => None
      | Dir es =>
          match es !! c with
          | None => None
          | Some t' =>
              match p' with
              | [] => Some (Dir (delete c es))
              | _ :: _ =>
                  match remove t' p' with
                  | Some t'' => Some (Dir (<[c := t'']> es))
                  | None => None
                  end
              end
          end
      end
  end.

(** [fs.rmSync(p, { recursive: true, force: true })]: a missing path is
    not an error; the root cannot be removed. *)
Definition rmSync (t : node) (p : list string) : result node :=
  if negb (Path.valid p) then Throw (Path.refusal p)
  else match p with
       | [] => Throw (SystemError "EBUSY")
       | _ :: _ => Ok (default t (remove t p))
       end.

(** [fs.unlinkSync(p)] *)
Definition unlinkSync (t : node) (p : list string) : result node :=
  if negb (Path.valid p) then Throw (Path.refusal p)
  else match lookup t p with
       | Some (File _) =>
           match remove t p with
           | Some t' => Ok t'
           | None => Throw (SystemError "ENOENT")
           end
       | Some (Dir _) => Throw (SystemError "EISDIR")
       | None => Throw (SystemError "ENOENT")
       end.

End Fs.

(** ** The world the task functions act on *)

(** What reaches the terminal: the [console] method or spinner call, and
    its arguments. *)
Inductive channel := log | warn | error | spinner_start | spinner_fail | spinner_succeed.

Inductive arg :=
| Txt (s : string)        (* a string argument *)
| Inspect (v : json)      (* an object argument, printed by the runtime *)
| InspectExn (e : exn).   (* a caught exception, printed by the runtime *)

Definition output : Type := channel * list arg.

Record world := World {
  currentDir : list string;   (* [let currentDir = process.cwd()] *)
  fs : node;
  console : list output
}.

Definition set_currentDir (d : list string) (w : world) : world :=
  World d (fs w) (console w).
Definition set_fs (t : node) (w : world) : world :=
  World (currentDir w) t (console w).
Definition print (o : output) (w : world) : world :=
  World (currentDir w) (fs w) (console w ++ [o]).

(** Computations that read and change the world and may throw; what was
    done before a throw stays done. *)
Definition M (A : Type) : Type := world -> result A * world.

Definition ret {A} (a : A) : M A := fun w => (Ok a, w).
Definition throw {A} (e : exn) : M A := fun w => (Throw e, w).
Definition bind {A B} (m : M A) (k : A -> M B) : M B :=
  fun w =>
    match m w with
    | (Ok a, w') => k a w'
    | (Throw e, w') => (Throw e, w')
    end.

Declare Scope agent_scope.
Delimit Scope agent_scope with agent.
Notation "'let*' x ':=' m 'in' k" := (bind m (fun x => k))
  (at level 10, x name, m at level 100, k at level 200, only parsing) : agent_scope.
Open Scope agent_scope.

Definition console_log (args : list arg) : M unit := fun w => (Ok tt, print (log, args) w).
Definition console_warn (args : list arg) : M unit := fun w => (Ok tt, print (warn, args) w).
Definition console_error (args : list arg) : M unit := fun w => (Ok tt, print (error, args) w).
Definition spinner (c : channel) (text : string) : M unit :=
  fun w => (Ok tt, print (c, [Txt text]) w).

Definition lift {A} (f : node -> result A) : M A := fun w =>
  match f (fs w) with
  | Ok a => (Ok a, w)
  | Throw e => (Throw e, w)
  end.

Definition update (f : node -> result node) : M unit := fun w =>
  match f (fs w) with
  | Ok t => (Ok tt, set_fs t w)
  | Throw e => (Throw e, w)
  end.

(** [fs.mkdirSync(p, { recursive: true })] *)
Definition mkdirSync (p : list string) : M unit := fun w =>
  match Fs.mkdirSync (fs w) p with
  | (t, None) => (Ok tt, set_fs t w)
  | (t, Some e) => (Throw e, set_fs t w)
  end.

Definition set_cwd (d : list string) : M unit := fun w => (Ok tt, set_currentDir d w).

Definition existsSync (p : list string) : M bool := fun w => (Ok (Fs.existsSync (fs w) p), w).

(** [path.resolve(currentDir, p)]: a [p] that is not a string is refused. *)
Definition path_resolve (p : option json) : M (list string) := fun w =>
  match p with
  | Some (JStr s) => (Ok (Path.resolve (currentDir w) s), w)
  | _ => (Throw (TypeError "ERR_INVALID_ARG_TYPE"), w)
  end.

(** The [data] argument of [fs.writeFileSync]: a string, nothing else. *)
Definition file_data (content : option json) : M string :=
  match content with
  | Some (JStr s) => ret s
  | _ => throw (TypeError "ERR_INVALID_ARG_TYPE")
  end.

(** ** The task functions *)

Definition nl : string := Str.b1 10.

(** 2. Write to a file (creates file and folders if needed) *)
Definition writeFile (targetPath content : option json) : M unit :=
  let* fullPath := path_resolve targetPath in
  let* _ := mkdirSync (Path.dirname fullPath) in
  let* data := file_data content in
  let* _ := update (fun t => Fs.writeFileSync t fullPath data) in
  console_log [Txt "📄 File written:"; Txt (Path.show fullPath)].

(** 3. Read a file *)
Definition readFile (targetPath : option json) : M json :=
  let* fullPath := path_resolve targetPath in
  let* found := existsSync fullPath in
  if found : bool then
    let* content := lift (fun t => Fs.readFileSync t fullPath) in
    let* _ := console_log [Txt "📖 File content from:"; Txt (Path.show fullPath)] in
    let* _ := console_log [Txt content] in
    ret (JStr content)
  else
    let* _ := console_warn [Txt "⚠️ File not found:"; Txt (Path.show fullPath)] in
    ret JNull.

(** 4. Edit file *)
Definition editFile (targetPath content : option json) : M unit :=
  let* fullPath := path_resolve targetPath in
  let* found := existsSync fullPath in
  if found : bool then
    let* data := file_data content in
    let* _ := update (fun t => Fs.writeFileSync t fullPath data) in
    console_log [Txt "✏️ File edited:"; Txt (Path.show fullPath)]
  else
    console_warn [Txt "⚠️ Cannot edit, file not found:"; Txt (Path.show fullPath)].

(** 5. Change working directory (virtual) *)
Definition changeDirectory (newPath : option json) : M unit :=
  let* targetPath := path_resolve newPath in
  let* found := existsSync targetPath in
  let* isDir := (if found : bool then lift (fun t => Fs.isDirectory t targetPath) else ret false) in
  if isDir : bool then
    let* _ := set_cwd targetPath in
    console_log [Txt "📁 Changed directory to:"; Txt (Path.show targetPath)]
  else
    let* _ := mkdirSync targetPath in
    let* _ := set_cwd targetPath in
    console_log [Txt "📁 Created and changed directory to:"; Txt (Path.show targetPath)].

(** [paths.forEach(...)] of [cleanUp] *)
Fixpoint cleanUp_each (paths : list json) : M unit :=
  match paths with
  | [] => ret tt
  | p :: rest =>
      let* fullPath := path_resolve (Some p) in
      let* found := existsSync fullPath in
      let* _ := (if found : bool then
                   let* isDir := lift (fun t => Fs.isDirectory t fullPath) in
                   let* _ := (if isDir : bool
                              then update (fun t => Fs.rmSync t fullPath)
                              else update (fun t => Fs.unlinkSync t fullPath)) in
                   console_log [Txt "🧹 Removed:"; Txt (Path.show fullPath)]
                 else ret tt) in
      cleanUp_each rest
  end.

(** cleanUp() - remove unwanted files or directories *)
Definition cleanUp (paths : option json) : M unit :=
  match paths with
  | Some (JArr items) => cleanUp_each items
  | _ => throw (TypeError "paths.forEach is not a function")
  end.

(** fileContains() - check if file has a specific string *)
Definition fileContains (filePath searchText : option json) : M bool :=
  match filePath with
  | Some (JStr s) =>
      let* fullPath := path_resolve (Some (JStr (Str.trim s))) in
      let* found := existsSync fullPath in
      if found : bool then
        let* content := lift (fun t => Fs.readFileSync t fullPath) in
        ret (Str.includes (Js.text searchText) content)
      else ret false
  | _ => throw (TypeError "filePath.trim is not a function")
  end.

(** logStep() - describe the step being performed *)
Definition logStep (description : option json) : M unit :=
  let* _ := console_log [Txt nl] in
  console_log [Txt "🔧  Step: "; Txt (Js.text description)].

Definition isErrorLine (line : string) : bool :=
  Str.includes "error" (Str.toLowerCase line) || Str.includes "ERR_" line.

(** [lines.forEach(...)] of [parseShellErrors]: the array [errors] is
    threaded through, [push] appends at its end. *)
Fixpoint collectErrors (lines : list string) (errors : list string) : list string :=
  match lines with
  | [] => errors
  | line :: rest =>
      collectErrors rest (if isErrorLine line then errors ++ [Str.trim line] else errors)
  end.

Fixpoint print_each (prefix : list arg) (l : list string) : M unit :=
  match l with
  | [] => ret tt
  | x :: rest => let* _ := console_log (prefix ++ [Txt x]) in print_each prefix rest
  end.

(** parseShellErrors() - extract common error patterns from stderr *)
Definition parseShellErrors (stderr : option json) : M (list string) :=
  match stderr with
  | Some (JStr s) =>
      let errors := collectErrors (Str.split "010" s) [] in
      let* _ := (if (0 <? length errors)%nat
                 then let* _ := console_log [Txt "🛑 Detected Errors:"] in
                      print_each [Txt "•"] errors
                 else console_log [Txt "✅ No critical errors found in stderr"]) in
      ret errors
  | _ => throw (TypeError "stderr.split is not a function")
  end.

(** The capture of [/Can't resolve '(.*?)'/] once its literal front has
    matched: the shortest run of characters other than line terminators
    that a quote follows. *)
Fixpoint lazyUntilQuote (s : string) : option string :=
  match s with
  | EmptyString => None
  | String c s' =>
      if Ascii.eqb c "'" then Some EmptyString
      else if Ascii.eqb c "010" || Ascii.eqb c "013"
              || Str.startsWith (Str.b3 226 128 168) s
              || Str.startsWith (Str.b3 226 128 169) s then None
      else match lazyUntilQuote s' with
           | Some m => Some (String c m)
           | None => None
           end
  end.

(** [stderr.match(/Can't resolve '(.*?)'/)]: the capture of the leftmost
    match, [None] for [null]. *)
Fixpoint matchCantResolve (s : string) : option string :=
  match match Str.stripPrefix "Can't resolve '" s with
        | Some r => lazyUntilQuote r
        | None => None
        end with
  | Some m => Some m
  | None =>
      match s with
      | EmptyString => None
      | String _ s' => matchCantResolve s'
      end
  end.

Definition reactHint : string :=
  "Did you forget to import React?" ++ nl ++ "  👉 Add: import React from 'react'".

Definition missingDependency (m : string) : string :=
  "Missing dependency: " ++ m ++ nl ++ "  👉 Try: npm install " ++ m.

Definition print_suggestions (suggestions : list string) : M unit :=
  if (0 <? length suggestions)%nat
  then let* _ := console_log [Txt "💡 Suggestions:"] in
       print_each [Txt "•"] suggestions
  else ret tt.

(** [Array.prototype.includes] with a string argument *)
Definition arrayIncludes (items : list json) (lit : string) : bool :=
  existsb (fun v => Js.is_str (Some v) lit) items.

(** suggestImportsOrFixes() - based on error output, suggest imports or
    fixes.  A string and an array both have [includes]; only a string has
    [match]. *)
Definition suggestImportsOrFixes (stderr : option json) : M (list string) :=
  match stderr with
  | Some (JStr s) =>
      let suggestions := if Str.includes "React is not defined" s then [reactHint] else [] in
      let suggestions :=
        if Str.includes "Module not found" s then
          match matchCantResolve s with
          | Some m => (suggestions ++ [missingDependency m])%list
          | None => suggestions
          end
        else suggestions in
      let* _ := print_suggestions suggestions in
      ret suggestions
  | Some (JArr items) =>
      let suggestions :=
        if arrayIncludes items "React is not defined" then [reactHint] else [] in
      if arrayIncludes items "Module not found"
      then throw (TypeError "stderr.match is not a function")
      else let* _ := print_suggestions suggestions in
           ret suggestions
  | _ => throw (TypeError "stderr.includes is not a function")
  end.

(** What [child_process.exec] hands to its callback, and the filesystem
    the command leaves behind.  [error] is set exactly when the exit code
    is not zero (a command that could not be spawned or was killed counts
    as such). *)
Record exec_result := ExecResult {
  exit_code : Z;
  stdout : string;
  stderr : string;
  fs_after : node
}.

(** An [async] call either settles at once or is suspended in [exec]. *)
Inductive pending :=
| Settled (r : result (option json))
| Spawned (command : string).

(** 1. Run shell commands: up to the call of [exec] ... *)
Definition runShellCommand (command : option json) (w : world) : pending * world :=
  let w := print (spinner_start, [Txt ("Running: " ++ Js.text command)]) w in
  match command with
  | Some (JStr c) => (Spawned c, w)
  | _ => (Settled (Throw (TypeError "ERR_INVALID_ARG_TYPE")), w)
  end.

(** ... and its callback [(error, stdout, stderr) => ...]. *)
Definition runShellCommand_callback (command : string) (r : exec_result) : M string :=
  let* _ := (fun w => (Ok tt, set_fs (fs_after r) w)) in
  if negb (exit_code r =? 0)%Z then
    let* _ := spinner spinner_fail ("Failed: " ++ command) in
    let* _ := console_error [Txt ("❌ Error:" ++ nl ++ stderr r)] in
    throw (ExecError (exit_code r))
  else
    let* _ := spinner spinner_succeed ("Success: " ++ command) in
    let* _ := console_log [Txt (Str.trim (stdout r))] in
    ret (stdout r).

Module Task.
Record t := Make {
  type : option json;
  input : option json;
  content : option json
}.
End Task.

Definition settle {A} (m : M A) (f : A -> option json) (w : world) : pending * world :=
  match m w with
  | (Ok a, w') => (Settled (Ok (f a)), w')
  | (Throw e, w') => (Settled (Throw e), w')
  end.

(** 6. Decide and execute task.  [switch] compares with [===]; only the
    [read] and [contains] cases return what their function returned. *)
Definition executeTask (task : Task.t) : world -> pending * world :=
  let type := Task.type task in
  let input := Task.input task in
  let content := Task.content task in
  if Js.is_str type "shell" then runShellCommand input
  else if Js.is_str type "write" then settle (writeFile input content) (fun _ => None)
  else if Js.is_str type "read" then settle (readFile input) Some
  else if Js.is_str type "edit" then settle (editFile input content) (fun _ => None)
  else if Js.is_str type "cd" then settle (changeDirectory input) (fun _ => None)
  else if Js.is_str type "clean" then settle (cleanUp input) (fun _ => None)
  else if Js.is_str type "contains" then settle (fileContains input content) (fun v => Some (JBool v))
  else if Js.is_str type "log" then settle (logStep input) (fun _ => None)
  else if Js.is_str type "errors" then settle (parseShellErrors input) (fun _ => None)
  else if Js.is_str type "suggestions" then settle (suggestImportsOrFixes input) (fun _ => None)
  else settle (console_error [Txt "❓ Unknown task type"]) (fun _ => None).

(** The rest of [executeTask] for a [shell] task, once [exec] has called
    back: [await] takes what the promise settled with and drops it,
    [break] leaves the [switch], and the function ends without a value. *)
Definition executeTask_resume (command : string) (r : exec_result) : M (option json) :=
  let* _ := runShellCommand_callback command r in
  ret None.

(** ** The conversation and the control loop *)

Inductive Role := system | user | assistant.

Record Message := Msg { role : Role; content : string }.

(** Where the script is suspended, or how it ended. *)
Inductive control :=
| AwaitingPrompt                                   (* in [rl.question] *)
| PlannerCall                                      (* in [openai.chat.completions.create] *)
| Executing (parsed_result : json) (command : string)  (* in [exec], inside the action branch *)
| Exited                                           (* the outer loop was left by [break] *)
| Crashed (e : exn).                               (* an exception nobody caught *)

Record state := State {
  message : list Message;   (* [const message = [{ role: 'system', ... }]] *)
  env : world;
  at_ : control
}.

(** What the planner call comes back with: the request fails, or its
    content is handed to [JSON.parse], which throws or returns a value. *)
Inductive reply :=
| EndpointFailure
| NotJSON (raw : string)
| Parsed (parsed_result : json).

Inductive event :=
| Line (answer : result string)   (* [rl.question] resolved with a line, or rejected *)
| Reply (r : reply)
| ExecDone (r : exec_result).

Definition push (m : Message) (s : state) : state :=
  State (message s ++ [m]) (env s) (at_ s).
Definition goto (c : control) (s : state) : state :=
  State (message s) (env s) c.
Definition with_env (w : world) (s : state) : state :=
  State (message s) w (at_ s).
Definition say (o : output) (s : state) : state :=
  with_env (print o (env s)) s.

Definition record_reply (parsed_result : json) : Message :=
  Msg assistant (Js.stringify parsed_result).

(** [const message = [{ role: 'system', content: system_prompt }]], and
    the script about to ask for its first prompt. *)
Definition initial (system_prompt : string) (cwd : list string) (disk : node) : state :=
  State [Msg system system_prompt] (World cwd disk []) AwaitingPrompt.

(** The top of the outer loop, once [rl.question] has settled. *)
Definition outer (answer : result string) (s : state) : state :=
  match answer with
  | Ok prompt =>
      if String.eqb prompt "exit" then
        goto Exited
          (say (log, [Txt nl])
             (say (log, [Txt (nl ++ "Thanks for using Agent Buddy! See You Later ✌️")]) s))
      else goto PlannerCall (push (Msg user prompt) s)
  | Throw e =>
      goto PlannerCall (say (log, [Txt "❌ ERROR in outer loop:"; InspectExn e]) s)
  end.

(** The action branch after [executeTask] has returned normally. *)
Definition action_done (parsed_result : json) (s : state) : state :=
  goto PlannerCall (push (record_reply parsed_result) s).

(** [if (parsed_result.step === 'action') { ... }] *)
Definition action (parsed_result : json) (s : state) : state :=
  match Js.prop parsed_result "fType",
        Js.prop parsed_result "fInput",
        Js.prop parsed_result "fContent" with
  | Some fType, Some fInput, Some fContent =>
      if Js.truthy fType && Js.defined fInput then
        match executeTask (Task.Make fType fInput (Js.or_else fContent (JStr ""))) (env s) with
        | (Settled (Ok _), w) => action_done parsed_result (with_env w s)
        | (Settled (Throw e), w) => goto (Crashed e) (with_env w s)
        | (Spawned command, w) => goto (Executing parsed_result command) (with_env w s)
        end
      else
        action_done parsed_result
          (say (warn, [Txt "Missing fType or fInput in action step!"]) s)
  | _, _, _ => goto (Crashed (TypeError "Cannot destructure")) s
  end.

(** One pass through the body of the inner loop, from the value
    [JSON.parse] returned on. *)
Definition inner (parsed_result : json) (s : state) : state :=
  match Js.prop parsed_result "step" with
  | None => goto (Crashed (TypeError "Cannot read properties of null")) s
  | Some step =>
      let s := if Js.is_str step "analyze" then push (record_reply parsed_result) s else s in
      let s := if Js.is_str step "convert" then push (record_reply parsed_result) s else s in
      if Js.is_str step "output" then
        goto AwaitingPrompt
          (say (log, [Txt nl])
             (say (log, [Txt ("✅ Output :" ++ nl); Inspect parsed_result]) s))
      else if Js.is_str step "action" then action parsed_result s
      else goto PlannerCall s
  end.

(** The script resumes from where it is suspended; an event that is not
    the one awaited cannot happen. *)
Definition step (s : state) (e : event) : option state :=
  match at_ s, e with
  | AwaitingPrompt, Line answer => Some (outer answer s)
  | PlannerCall, Reply EndpointFailure => Some (goto (Crashed EndpointError) s)
  | PlannerCall, Reply (NotJSON raw) => Some (goto (Crashed (SyntaxError raw)) s)
  | PlannerCall, Reply (Parsed parsed_result) => Some (inner parsed_result s)
  | Executing parsed_result command, ExecDone r =>
      match executeTask_resume command r (env s) with
      | (Ok _, w) => Some (action_done parsed_result (with_env w s))
      | (Throw e, w) => Some (goto (Crashed e) (with_env w s))
      end
  | _, _ => None
  end.

Fixpoint run (s : state) (events : list event) : option state :=
  match events with
  | [] => Some s
  | e :: rest =>
      match step s e with
      | Some s' => run s' rest
      | None => None
      end
  end.

(** ** What the specification says, in terms of the code *)

(** A task whose three fields are strings, as an action reply carries it. *)
Definition task (type input content : string) : Task.t :=
  Task.Make (Some (JStr type)) (Some (JStr input)) (Some (JStr content)).



(** "A cd task never fails: afterwards currentPath is the resolved target
    and an existing directory." *)
Definition cd_lands (w : world) (p : string) : Prop :=
  exists w',
    executeTask (task "cd" p "") w = (Settled (Ok None), w')
    /\ currentDir w' = Path.resolve (currentDir w) p
    /\ Fs.isDirectory (fs w') (currentDir w') = Ok true.

(** "A write task followed by a read task on the same path returns the
    content written." *)
Definition write_then_read (w : world) (p data : string) : Prop :=
  exists w1 w2,
    executeTask (task "write" p data) w = (Settled (Ok None), w1)
    /\ currentDir w1 = currentDir w
    /\ executeTask (task "read" p "") w1 = (Settled (Ok (Some (JStr data))), w2).

(** Where a write can go: the resolved target is a path the system
    accepts, is not a directory, and no path it extends is a regular
    file. *)
Definition writable (w : world) (p : string) : Prop :=
  let fullPath := Path.resolve (currentDir w) p in
  Path.valid fullPath = true
  /\ Fs.fileOnPath (fs w) (Path.dirname fullPath) = false
  /\ Fs.isDirectory (fs w) fullPath <> Ok true.

(** "When the resolved target of a path does not exist, a read task
    returns null and a contains task returns false." *)
Definition missing_gives_null_and_false (w : world) (p searchText : string) : Prop :=
  Fs.existsSync (fs w) (Path.resolve (currentDir w) p) = false ->
  fst (executeTask (task "read" p "") w) = Settled (Ok (Some JNull))
  /\ fst (executeTask (task "contains" p searchText) w) = Settled (Ok (Some (JBool false))).

(** An action reply and the three task fields read out of it. *)
Definition action_with (parsed_result : json) (fType fInput fContent : option json) : Prop :=
  Js.prop parsed_result "step" = Some (Some (JStr "action"))
  /\ Js.prop parsed_result "fType" = Some fType
  /\ Js.prop parsed_result "fInput" = Some fInput
  /\ Js.prop parsed_result "fContent" = Some fContent.

(** An action reply that asks for the shell command [command]. *)
Definition shell_action (parsed_result : json) (command : string) : Prop :=
  exists fContent,
    action_with parsed_result (Some (JStr "shell")) (Some (JStr command)) fContent.

(** "After a failed shell command the loop goes on: the failure is
    appended to the history within the assistant's record and another
    planner reply is requested." *)
Definition shell_failure_survived (s : state) (parsed_result : json) (r : exec_result) : Prop :=
  exists s' m,
    run s [Reply (Parsed parsed_result); ExecDone r] = Some s'
    /\ at_ s' = PlannerCall
    /\ message s' = (message s ++ [m])%list
    /\ role m = assistant
    /\ Str.includes (stderr r) (content m) = true.

(** The values of [step] the inner loop has a branch for. *)
Definition handled (step : option json) : bool :=
  Js.is_str step "analyze" || Js.is_str step "convert"
  || Js.is_str step "output" || Js.is_str step "action".

(** A parsed reply whose [step] is missing or none of the handled values. *)
Definition unrecognized (parsed_result : json) : bool :=
  match Js.prop parsed_result "step" with
  | Some step => negb (handled step)
  | None => false
  end.

(** "A protocol violation is logged and a fresh reply is requested rather
    than crashing; when the retries are used up the cycle ends." *)
Definition violation_recovered (s : state) (r : reply) : Prop :=
  exists s',
    step s (Reply r) = Some s'
    /\ (at_ s' = PlannerCall \/ at_ s' = AwaitingPrompt)
    /\ console (env s') <> console (env s).

(** The phase a reply counts for: analyze, convert or action. *)
Definition is_phase (e : event) : bool :=
  match e with
  | Reply (Parsed parsed_result) =>
      match Js.prop parsed_result "step" with
      | Some step =>
          Js.is_str step "analyze" || Js.is_str step "convert" || Js.is_str step "action"
      | None => false
      end
  | _ => false
  end.

Definition phases (events : list event) : nat := length (List.filter is_phase events).

Definition is_line (e : event) : bool :=
  match e with
  | Line _ => true
  | _ => false
  end.

(** The replies of a cycle have all been dealt with. *)
Definition between_replies (c : control) : bool :=
  match c with
  | PlannerCall | AwaitingPrompt => true
  | _ => false
  end.

(** "Within one prompt cycle, after the prompt and K phases, the history
    holds 1 + 1 + K messages." *)
Definition history_is_two_plus_phases (s : state) (prompt : string) (events : list event) : Prop :=
  forall s',
    at_ s = AwaitingPrompt ->
    prompt <> "exit" ->
    forallb (fun e => negb (is_line e)) events = true ->
    run s (Line (Ok prompt) :: events) = Some s' ->
    between_replies (at_ s') = true ->
    length (message s') = 1 + 1 + phases events.

(** Data for the examples: a disk with [/home/App.jsx]. *)
Definition disk : node :=
  Dir (<["home" := Dir (<["App.jsx" := File "Hello World"]> ∅)]> ∅).
Definition home : world := World ["home"] disk [].

(** A name of 256 bytes, one more than a directory entry can hold. *)
Definition long_name : string := fold_right String "" (List.repeat "a"%char 256).
Definition start : state := initial "You are an Expert Developer." ["home"] disk.

Definition action_reply (fType fInput fContent : string) : json :=
  JObj [("step", JStr "action"); ("function", JStr "executeTask");
        ("fType", JStr fType); ("fInput", JStr fInput); ("fContent", JStr fContent)].

(** The loop waiting for a planner reply, in the first cycle. *)
Definition asking : state :=
  State [Msg system "You are an Expert Developer."; Msg user "check the notes"]
    home PlannerCall.

(** What [exec] reports for the command [false]. *)
Definition exit_one : exec_result := ExecResult 1 "" "" disk.

(** The script back at the prompt after a first cycle that ended with an
    output reply. *)
Definition after_first_cycle : state :=
  State [Msg system "You are an Expert Developer."; Msg user "hello"]
    (World ["home"] disk
       [(log, [Txt ("✅ Output :" ++ nl); Inspect (JObj [("step", JStr "output")])]);
        (log, [Txt nl])])
    AwaitingPrompt.

(** The events of a second cycle: an analyze reply, a shell action that
    succeeds, and a reply the loop has no branch for. *)
Definition second_cycle : list event :=
  [Reply (Parsed (JObj [("step", JStr "analyze")]));
   Reply (Parsed (action_reply "shell" "ls" ""));
   ExecDone (ExecResult 0 "App.jsx" "" disk);
   Reply (Parsed (JObj [("step", JStr "exit")]))].

(** The assistant record an action owes while its command runs. *)
Definition pending_record (c : control) : nat :=
  match c with
  | Executing _ _ => 1
  | _ => 0
  end.

(** The script is inside the inner loop. *)
Definition running (c : control) : bool :=
  match c with
  | PlannerCall | Executing _ _ => true
  | _ => false
  end.

(** The history of [s'] is that of [s] with [suffix], user and assistant
    messages only, at its end. *)
Definition added_by (s s' : state) (suffix : list Message) : Prop :=
  message s' = (message s ++ suffix)%list
  /\ Forall (fun m => role m = user \/ role m = assistant) suffix.

(** ** Further notions used about the code *)

(** A clean task on the paths [paths]. *)
Definition clean_task (paths : list string) : Task.t :=
  Task.Make (Some (JStr "clean")) (Some (JArr (map JStr paths))) (Some (JStr "")).

(** A clean task whose list holds any JSON values. *)
Definition clean_items (items : list json) : Task.t :=
  Task.Make (Some (JStr "clean")) (Some (JArr items)) (Some (JStr "")).

(** Whether a value is a string: what [fs.writeFileSync] takes as data. *)
Definition is_string (v : option json) : bool :=
  match v with
  | Some (JStr _) => true
  | _ => false
  end.

(** The task types [executeTask] has a case for. *)
Definition known_kind (type : option json) : bool :=
  existsb (Js.is_str type)
    ["shell"; "write"; "read"; "edit"; "cd"; "clean"; "contains"; "log"; "errors";
     "suggestions"].

(** Where a message of the history comes from: a user message is a line
    typed at the prompt (other than exit), an assistant message is a
    parsed planner reply, serialised again. *)
Definition came_from (events : list event) (m : Message) : Prop :=
  (exists prompt, m = Msg user prompt /\ prompt <> "exit" /\ In (Line (Ok prompt)) events)
  \/ (exists parsed_result,
         m = Msg assistant (Js.stringify parsed_result)
         /\ In (Reply (Parsed parsed_result)) events).

(** The reply whose record is still owed has been seen. *)
Definition owed_seen (c : control) (seen : list event) : Prop :=
  match c with
  | Executing parsed_result _ => In (Reply (Parsed parsed_result)) seen
  | _ => True
  end.

(** A path with no empty, [.] or [..] component. *)
Definition plain (p : list string) : Prop :=
  Forall (fun c => c <> "" /\ c <> "." /\ c <> "..") p.

(** * Facts about strings *)

Module StrFacts.
Import Str.

Lemma app_nil_r (s : string) : s ++ "" = s.
Proof. induction s as [|c s IH]; [reflexivity|]. change (String c (s ++ "") = String c s). now rewrite IH. Qed.

Lemma app_cons (c : ascii) (s t : string) : String c s ++ t = String c (s ++ t).
Proof. reflexivity. Qed.

Lemma app_assoc (a b c : string) : (a ++ b) ++ c = a ++ (b ++ c).
Proof.
  induction a as [|x a IH]; [reflexivity|].
  rewrite !app_cons. now rewrite IH.
Qed.

Lemma length_app (a b : string) : String.length (a ++ b) = (String.length a + String.length b)%nat.
Proof.
  induction a as [|x a IH]; [reflexivity|].
  rewrite app_cons. simpl. now rewrite IH.
Qed.

Lemma rev_app (a b : string) : rev (a ++ b) = rev b ++ rev a.
Proof.
  induction a as [|x a IH].
  - simpl. now rewrite app_nil_r.
  - rewrite app_cons. simpl. rewrite IH. apply app_assoc.
Qed.

Lemma rev_involutive (s : string) : rev (rev s) = s.
Proof.
  induction s as [|x s IH]; [reflexivity|].
  simpl. rewrite rev_app, IH. reflexivity.
Qed.

Lemma length_rev (s : string) : String.length (rev s) = String.length s.
Proof.
  induction s as [|x s IH]; [reflexivity|].
  simpl. rewrite length_app, IH. simpl. lia.
Qed.

Lemma stripPrefix_Some (p s r : string) : stripPrefix p s = Some r <-> s = p ++ r.
Proof.
  revert s. induction p as [|a p IH]; intros s; simpl.
  - split; [intros [= ->]; reflexivity | intros ->; reflexivity].
  - destruct s as [|c s]; [split; [discriminate | rewrite app_cons; discriminate]|].
    destruct (Ascii.eqb_spec a c) as [->|Hne].
    + rewrite IH, app_cons. split; [intros ->; reflexivity | intros [= ->]; reflexivity].
    + split; [discriminate|]. rewrite app_cons. intros [= -> _]. now contradiction Hne.
Qed.

Lemma dropOne_Some (ws : list string) (s r : string) :
  dropOne ws s = Some r -> exists w, In w ws /\ s = w ++ r.
Proof.
  induction ws as [|w ws IH]; simpl; [discriminate|].
  destruct (stripPrefix w s) as [r'|] eqn:E.
  - intros [= ->]. exists w. split; [now left | now apply stripPrefix_Some].
  - intros H. destruct (IH H) as (w' & Hin & Hs). exists w'. split; [now right | assumption].
Qed.

Lemma dropOne_None (ws : list string) (s : string) :
  dropOne ws s = None <-> forall w, In w ws -> stripPrefix w s = None.
Proof.
  induction ws as [|w ws IH]; simpl.
  - split; [intros _ ? [] | reflexivity].
  - destruct (stripPrefix w s) as [r|] eqn:E.
    + split; [discriminate|]. intros H. specialize (H w (or_introl eq_refl)). congruence.
    + rewrite IH. split.
      * intros H w' [<-|Hin]; [assumption | now apply H].
      * intros H w' Hin. apply H. now right.
Qed.

Lemma dropWhile_suffix (ws : list string) (n : nat) (s : string) :
  exists x, s = x ++ dropWhile ws n s.
Proof.
  revert s. induction n as [|n IH]; intros s; simpl.
  - now exists "".
  - destruct (dropOne ws s) as [r|] eqn:E; [|now exists ""].
    destruct (dropOne_Some _ _ _ E) as (w & _ & ->).
    destruct (IH r) as (x & Hx). exists (w ++ x).
    rewrite app_assoc. now rewrite <- Hx.
Qed.

Lemma dropWhile_stable (ws : list string) (n : nat) (s : string) :
  dropOne ws s = None -> dropWhile ws n s = s.
Proof. destruct n; simpl; [reflexivity|]. now intros ->. Qed.

Lemma dropWhile_done (ws : list string) (n : nat) (s : string) :
  Forall (fun w => w <> "") ws ->
  (String.length s <= n)%nat ->
  dropOne ws (dropWhile ws n s) = None.
Proof.
  intros Hne. revert s. induction n as [|n IH]; intros s Hlen; simpl.
  - destruct s; [|simpl in Hlen; lia].
    apply dropOne_None. intros w Hin.
    rewrite List.Forall_forall in Hne. specialize (Hne w Hin).
    destruct w; [contradiction|reflexivity].
  - destruct (dropOne ws s) as [r|] eqn:E; [|assumption].
    apply IH. destruct (dropOne_Some _ _ _ E) as (w & Hin & ->).
    rewrite List.Forall_forall in Hne. specialize (Hne w Hin).
    rewrite length_app in Hlen. destruct w; [contradiction|]. simpl in Hlen. lia.
Qed.

Lemma dropOne_prefix (ws : list string) (u x : string) :
  dropOne ws (u ++ x) = None -> dropOne ws u = None.
Proof.
  rewrite !dropOne_None. intros H w Hin. specialize (H w Hin).
  destruct (stripPrefix w u) as [r|] eqn:E; [|reflexivity].
  apply stripPrefix_Some in E. subst u.
  assert (stripPrefix w ((w ++ r) ++ x) = Some (r ++ x)) as E'
    by (apply stripPrefix_Some; apply app_assoc).
  congruence.
Qed.

Lemma whiteSpace_nonempty : Forall (fun w => w <> "") whiteSpace.
Proof. repeat constructor; discriminate. Qed.

Lemma rev_whiteSpace_nonempty : Forall (fun w => w <> "") (map rev whiteSpace).
Proof. repeat constructor; discriminate. Qed.

Lemma trimStart_clean (s : string) : dropOne whiteSpace (trimStart s) = None.
Proof. apply dropWhile_done; [apply whiteSpace_nonempty | lia]. Qed.

Lemma trimEnd_prefix (s : string) : exists x, s = trimEnd s ++ x.
Proof.
  unfold trimEnd.
  destruct (dropWhile_suffix (map rev whiteSpace) (String.length s) (rev s)) as (y & Hy).
  exists (rev y). rewrite <- rev_app, <- Hy. symmetry. apply rev_involutive.
Qed.

Lemma trimEnd_clean (s : string) : dropOne (map rev whiteSpace) (rev (trimEnd s)) = None.
Proof.
  unfold trimEnd. rewrite rev_involutive.
  apply dropWhile_done; [apply rev_whiteSpace_nonempty | rewrite length_rev; lia].
Qed.

Lemma trim_clean_start (s : string) : dropOne whiteSpace (trim s) = None.
Proof.
  unfold trim. destruct (trimEnd_prefix (trimStart s)) as (x & Hx).
  apply dropOne_prefix with (x := x). rewrite <- Hx. apply trimStart_clean.
Qed.

(** Trimming a trimmed string changes nothing. *)
Lemma trim_idempotent (s : string) : trim (trim s) = trim s.
Proof.
  assert (trimStart (trim s) = trim s) as E1.
  { unfold trimStart at 1. apply dropWhile_stable, trim_clean_start. }
  unfold trim at 1. rewrite E1.
  unfold trimEnd at 1. rewrite dropWhile_stable.
  - apply rev_involutive.
  - unfold trim. apply trimEnd_clean.
Qed.

End StrFacts.

(** * Facts about the paths [fs] accepts *)

Module ValidFacts.
Import Path.

Lemma valid_parts (p : list string) :
  valid p = true <-> nulFree p = true /\ tooLong p = false /\ namesFit p = true.
Proof.
  unfold valid. rewrite !andb_true_iff, negb_true_iff. tauto.
Qed.

Lemma show_fold_length (p : list string) (acc : string) :
  String.length (fold_left (fun acc c => acc ++ "/" ++ c) p acc)
  = (String.length acc + list_sum (map (fun c => S (String.length c)) p))%nat.
Proof.
  revert acc. induction p as [|c p IH]; intros acc; simpl; [lia|].
  rewrite IH, !StrFacts.length_app. simpl. lia.
Qed.

Lemma show_length (p : list string) :
  String.length (show p)
  = match p with
    | [] => 1%nat
    | _ => list_sum (map (fun c => S (String.length c)) p)
    end.
Proof.
  destruct p as [|c p]; [reflexivity|]. unfold show. now rewrite show_fold_length.
Qed.

(** A path is no longer than the paths it is the start of. *)
Lemma show_length_prefix (p q : list string) :
  (String.length (show p) <= String.length (show (p ++ q)))%nat.
Proof.
  rewrite !show_length. destruct p as [|c p]; simpl.
  - destruct q as [|c q]; simpl; lia.
  - rewrite map_app, list_sum_app. lia.
Qed.

Lemma valid_prefix (p q : list string) : valid (p ++ q) = true -> valid p = true.
Proof.
  rewrite !valid_parts. unfold nulFree, namesFit, tooLong.
  rewrite !forallb_app, !andb_true_iff, !Nat.ltb_ge.
  pose proof (show_length_prefix p q). intuition lia.
Qed.

Lemma valid_dirname (p : list string) : valid p = true -> valid (dirname p) = true.
Proof.
  unfold dirname. destruct p as [|c p] using rev_ind; [trivial|].
  rewrite removelast_last. apply valid_prefix.
Qed.

End ValidFacts.

(** * Facts about the filesystem *)

Module FsFacts.
Import Fs.

Lemma fileOnPath_empty (p : list string) : fileOnPath (Dir ∅) p = false.
Proof. destruct p as [|c p]; simpl; [reflexivity|]. now rewrite lookup_empty. Qed.

Lemma fileOnPath_not_file (t : node) (p : list string) (d : string) :
  fileOnPath t p = false -> lookup t p <> Some (File d).
Proof.
  revert t. induction p as [|c p IH]; intros [d'|es]; simpl; try discriminate.
  destruct (es !! c) as [t'|]; [apply IH | discriminate].
Qed.

Lemma fileOnPath_not_dir (t : node) (p : list string) (es : gmap string node) :
  fileOnPath t p = true -> lookup t p <> Some (Dir es).
Proof.
  revert t. induction p as [|c p IH]; intros [d'|es']; simpl; try discriminate.
  destruct (es' !! c) as [t'|]; [apply IH | discriminate].
Qed.

(** [mkdir -p] goes through exactly when no regular file is in the way,
    and then the path names a directory. *)
Lemma mkdirp_ok (t : node) (p : list string) :
  fileOnPath t p = false ->
  Path.namesFit p = true ->
  exists t' es, mkdirp t p = (t', None) /\ lookup t' p = Some (Dir es).
Proof.
  revert t. induction p as [|c p IH]; intros [d|es]; simpl; try discriminate.
  - intros _ _. now exists (Dir es), es.
  - intros H [Hc%negb_true_iff Hp]%andb_true_iff. rewrite Hc.
    assert (fileOnPath (default (Dir ∅) (es !! c)) p = false) as H'.
    { destruct (es !! c); [assumption | apply fileOnPath_empty]. }
    destruct (IH _ H' Hp) as (t' & es' & -> & Hl).
    exists (Dir (<[c := t']> es)), es'. split; [reflexivity|].
    simpl. now rewrite lookup_insert_eq.
Qed.

Lemma mkdirp_blocked (t : node) (p : list string) :
  fileOnPath t p = true -> exists t' e, mkdirp t p = (t', Some e).
Proof.
  revert t. induction p as [|c p IH]; intros [d|es]; simpl; try discriminate; eauto.
  destruct (Path.nameTooLong c); [eauto|].
  destruct (es !! c) as [t'|] eqn:E; [|discriminate].
  intros H. destruct (IH _ H) as (t1 & e & He). simpl. rewrite He. eauto.
Qed.

(** A name over the limit stops [mkdir -p], if nothing else did before. *)
Lemma mkdirp_long (t : node) (p : list string) :
  Path.namesFit p = false -> exists t' e, mkdirp t p = (t', Some e).
Proof.
  revert t. induction p as [|c p IH]; intros [d|es]; simpl; try discriminate; eauto.
  destruct (Path.nameTooLong c); simpl; [eauto|].
  intros H. destruct (IH (default (Dir ∅) (es !! c)) H) as (t1 & e & ->). eauto.
Qed.

(** Making a directory that is already there changes nothing. *)
Lemma mkdirp_dir_id (t : node) (p : list string) (es : gmap string node) :
  lookup t p = Some (Dir es) -> Path.namesFit p = true -> mkdirp t p = (t, None).
Proof.
  revert t. induction p as [|c p IH]; intros [d|es']; simpl; try discriminate.
  - reflexivity.
  - destruct (es' !! c) as [t'|] eqn:E; [|discriminate].
    intros H [Hc%negb_true_iff Hp]%andb_true_iff. rewrite Hc.
    simpl. rewrite (IH _ H Hp). now rewrite insert_id.
Qed.

Lemma mkdirSync_valid (t : node) (p : list string) :
  Path.valid p = true -> mkdirSync t p = mkdirp t p.
Proof.
  intros (Hn & Hl & _)%ValidFacts.valid_parts. unfold mkdirSync. now rewrite Hn, Hl.
Qed.

(** [fs.mkdirSync] throws on a path that is not accepted. *)
Lemma mkdirSync_refused (t : node) (p : list string) :
  Path.valid p = false -> exists t' e, mkdirSync t p = (t', Some e).
Proof.
  unfold Path.valid, mkdirSync. intros H.
  destruct (Path.nulFree p); simpl in *; [|eauto].
  destruct (Path.tooLong p); simpl in *; [eauto|].
  now apply mkdirp_long.
Qed.

Lemma write_lookup (t : node) (p : list string) (d : string) (t' : node) :
  write t p d = Ok t' -> lookup t' p = Some (File d).
Proof.
  revert t t'. induction p as [|c p IH]; intros [d0|es] t'; simpl; try discriminate.
  - now intros [= <-].
  - destruct (es !! c) as [t0|] eqn:E.
    + destruct (write t0 p d) as [t1|] eqn:W; [|discriminate].
      intros [= <-]. simpl. rewrite lookup_insert_eq. now apply IH with t0.
    + destruct p; [|discriminate]. intros [= <-]. simpl. now rewrite lookup_insert_eq.
Qed.

(** Once the parents are made, the file can be written unless the target
    is a directory. *)
Lemma mkdirp_then_write (p : list string) (t : node) (d : string) :
  fileOnPath t (removelast p) = false ->
  Path.namesFit (removelast p) = true ->
  (forall es, lookup t p <> Some (Dir es)) ->
  exists t1 t2, mkdirp t (removelast p) = (t1, None) /\ write t1 p d = Ok t2.
Proof.
  revert t. induction p as [|c p IH]; intros t Hfile Hfit Hdir.
  - destruct t as [d0|es]; [discriminate|]. now contradiction (Hdir es).
  - destruct t as [d0|es]; [destruct p; discriminate|].
    destruct p as [|c' p].
    + simpl. exists (Dir es).
      destruct (es !! c) as [[d0|es0]|] eqn:E; simpl; eauto.
      contradiction (Hdir es0). simpl. now rewrite E.
    + change (removelast (c :: c' :: p)) with (c :: removelast (c' :: p)) in *.
      simpl in Hfile.
      change (Path.namesFit (c :: removelast (c' :: p)))
        with (negb (Path.nameTooLong c) && Path.namesFit (removelast (c' :: p))) in Hfit.
      apply andb_true_iff in Hfit as [Hc%negb_true_iff Hfit].
      destruct (IH (default (Dir ∅) (es !! c))) as (t1 & t2 & Hm & Hw).
      * destruct (es !! c); [assumption | apply fileOnPath_empty].
      * exact Hfit.
      * intros es0 Hl. destruct (es !! c) as [t0|] eqn:E; simpl in Hl.
        -- apply (Hdir es0). simpl. now rewrite E.
        -- now rewrite lookup_empty in Hl.
      * exists (Dir (<[c := t1]> es)), (Dir (<[c := t2]> (<[c := t1]> es))).
        split.
        -- simpl. rewrite Hc. simpl in Hm. now rewrite Hm.
        -- change (write (Dir (<[c:=t1]> es)) (c :: c' :: p) d)
             with (match <[c:=t1]> es !! c with
                   | Some t' => match write t' (c' :: p) d with
                                | Ok t'' => Ok (Dir (<[c := t'']> (<[c:=t1]> es)))
                                | Throw e => Throw e
                                end
                   | None => Throw (SystemError "ENOENT")
                   end).
           rewrite lookup_insert_eq. now rewrite Hw.
Qed.

End FsFacts.

(** * The task functions *)

Ltac unfold_tasks :=
  unfold executeTask, task, settle, writeFile, readFile, editFile, changeDirectory,
    fileContains, bind, ret, throw, path_resolve, file_data, existsSync, lift, update,
    mkdirSync, set_cwd, console_log, console_warn, console_error; simpl.

Lemma print_each_ok (prefix : list arg) (l : list string) (w : world) :
  exists w', print_each prefix l w = (Ok tt, w')
             /\ fs w' = fs w /\ currentDir w' = currentDir w.
Proof.
  revert w. induction l as [|x l IH]; intros w; simpl.
  - now exists w.
  - unfold bind, console_log. simpl.
    destruct (IH (print (log, (prefix ++ [Txt x])%list) w)) as (w' & -> & ? & ?).
    now exists w'.
Qed.

Lemma collectErrors_spec (lines errors : list string) :
  collectErrors lines errors
  = (errors ++ map Str.trim (List.filter isErrorLine lines))%list.
Proof.
  revert errors. induction lines as [|line lines IH]; intros errors; simpl.
  - now rewrite List.app_nil_r.
  - rewrite IH. destruct (isErrorLine line); simpl; [|reflexivity].
    now rewrite <- List.app_assoc.
Qed.



Lemma existsSync_true (t : node) (p : list string) (n : node) :
  Path.valid p = true -> Fs.lookup t p = Some n -> Fs.existsSync t p = true.
Proof.
  intros Hv Hl. unfold Fs.existsSync. rewrite Hv, Hl. reflexivity.
Qed.

(** With a regular file at the target or above it, the cd task throws
    and currentPath stays where it was. *)
Lemma changeDirectory_blocked (w : world) (p : string) :
  Fs.fileOnPath (fs w) (Path.resolve (currentDir w) p) = true ->
  exists e w',
    executeTask (task "cd" p "") w = (Settled (Throw e), w')
    /\ currentDir w' = currentDir w.
Proof.
  intros Hf. unfold_tasks.
  set (target := Path.resolve (currentDir w) p) in *.
  unfold Fs.existsSync, Fs.isDirectory.
  destruct (FsFacts.mkdirp_blocked _ _ Hf) as (t1 & e & He).
  assert (exists t' e', Fs.mkdirSync (fs w) target = (t', Some e')) as (t' & e' & Hm).
  { destruct (Path.valid target) eqn:Hv.
    - rewrite (FsFacts.mkdirSync_valid _ _ Hv). eauto.
    - now apply FsFacts.mkdirSync_refused. }
  destruct (Path.valid target); simpl; [|rewrite Hm; eexists _, _; split; reflexivity].
  destruct (Fs.lookup (fs w) target) as [[d|es]|] eqn:Hl;
    simpl; rewrite ?Hl; simpl; rewrite ?Hm.
  - eexists _, _; split; reflexivity.
  - now contradiction (FsFacts.fileOnPath_not_dir _ _ es Hf).
  - eexists _, _; split; reflexivity.
Qed.

(** With a target that [fs] does not accept (a NUL byte, a name or a path
    over the limit), the cd task throws and currentPath stays where it
    was. *)
Lemma changeDirectory_refused (w : world) (p : string) :
  Path.valid (Path.resolve (currentDir w) p) = false ->
  exists e w',
    executeTask (task "cd" p "") w = (Settled (Throw e), w')
    /\ currentDir w' = currentDir w.
Proof.
  intros Hv. unfold_tasks.
  set (target := Path.resolve (currentDir w) p) in *.
  unfold Fs.existsSync. rewrite Hv. simpl.
  destruct (FsFacts.mkdirSync_refused (fs w) _ Hv) as (t' & e & ->).
  eexists _, _; split; reflexivity.
Qed.

(** C3, as the code has it, on a filesystem of directories and regular
    files that is open to the process: a cd task whose resolved target is a
    path the system accepts (no NUL byte, no name over 255 bytes, under
    4096 bytes in all) and neither is nor lies under a regular file
    succeeds whether or not the target exists beforehand; afterwards
    currentPath is the target resolved against the previous currentPath,
    and it is an existing directory.  With a target that is not accepted,
    or with a regular file at the target or above it, the task throws and
    currentPath is unchanged. *)
Theorem changeDirectory_lands (w : world) (p : string) :
  (Path.valid (Path.resolve (currentDir w) p) = true ->
   Fs.fileOnPath (fs w) (Path.resolve (currentDir w) p) = false ->
   cd_lands w p)
  /\ (Path.valid (Path.resolve (currentDir w) p) = false
      \/ Fs.fileOnPath (fs w) (Path.resolve (currentDir w) p) = true ->
      exists e w',
        executeTask (task "cd" p "") w = (Settled (Throw e), w')
        /\ currentDir w' = currentDir w).
Proof.
  split; [|intros [Hv|Hf];
           [now apply changeDirectory_refused | now apply changeDirectory_blocked]].
  intros Hv Hf. unfold cd_lands. unfold_tasks.
  set (target := Path.resolve (currentDir w) p) in *.
  unfold Fs.isDirectory. rewrite Hv. simpl.
  destruct (Fs.existsSync (fs w) target) eqn:Hex.
  - destruct (Fs.lookup (fs w) target) as [[d|es]|] eqn:Hl; simpl.
    + now contradiction (FsFacts.fileOnPath_not_file _ _ d Hf).
    + eexists. split; [reflexivity|]. simpl. rewrite Hv, Hl. simpl. now split.
    + unfold Fs.existsSync in Hex. rewrite Hl in Hex.
      rewrite andb_true_iff, bool_decide_eq_true in Hex.
      destruct Hex as [_ [? [=]]].
  - simpl. rewrite (FsFacts.mkdirSync_valid _ _ Hv).
    pose proof (proj1 (ValidFacts.valid_parts _) Hv) as (_ & _ & Hn).
    destruct (FsFacts.mkdirp_ok _ _ Hf Hn) as (t' & es & -> & Hl).
    eexists. split; [reflexivity|]. simpl. rewrite Hv, Hl. simpl. now split.
Qed.

Lemma changeDirectory_lands_witness :
  Path.valid (Path.resolve (currentDir home) "src/components") = true
  /\ Fs.fileOnPath (fs home) (Path.resolve (currentDir home) "src/components") = false
  /\ cd_lands home "src/components".
Proof.
  split; [reflexivity|]. split; [reflexivity|].
  apply (proj1 (changeDirectory_lands home "src/components")); reflexivity.
Defined.

(** C3 as stated fails: a cd task whose target is a regular file throws. *)
Lemma cd_lands_fails : ~ cd_lands home "App.jsx".
Proof.
  intros (w' & H & _). vm_compute in H. discriminate.
Qed.

(** Nor does a cd task land in a directory whose name is over the limit:
    the system refuses the name, after [mkdir] has made the directories
    above it.  A write task is refused the same way, and a read task
    takes the name for one that does not exist. *)
Example long_name_is_refused :
  String.length long_name = 256%nat
  /\ fst (executeTask (task "cd" long_name "") home)
     = Settled (Throw (SystemError "ENAMETOOLONG"))
  /\ (let w' := snd (executeTask (task "cd" ("src/" ++ long_name) "") home) in
      fst (executeTask (task "cd" ("src/" ++ long_name) "") home)
      = Settled (Throw (SystemError "ENAMETOOLONG"))
      /\ currentDir w' = ["home"]
      /\ Fs.isDirectory (fs w') ["home"; "src"] = Ok true)
  /\ fst (executeTask (task "write" long_name "x") home)
     = Settled (Throw (SystemError "ENAMETOOLONG"))
  /\ fst (executeTask (task "read" long_name "") home) = Settled (Ok (Some JNull)).
Proof. repeat split; vm_compute; reflexivity. Qed.

(** C6, as the code has it, on a filesystem of directories and regular
    files that is open to the process: for every content string of
    well-formed text (no unpaired surrogate) and every path whose resolved
    target is a path the system accepts (no NUL byte, no name over 255
    bytes, under 4096 bytes in all), is not a directory and does not lie
    under a regular file, the write task succeeds (making the missing
    parent directories and creating or overwriting the file) and leaves
    currentPath as it was, and a read task on the same path right after it
    returns exactly the content written. *)
Theorem write_then_read_roundtrip (w : world) (p data : string) :
  writable w p -> Str.isWellFormed data = true -> write_then_read w p data.
Proof.
  intros (Hv & Hf & Hd) _. unfold write_then_read. unfold_tasks.
  set (fullPath := Path.resolve (currentDir w) p) in *.
  unfold Fs.writeFileSync, Fs.readFileSync.
  rewrite (FsFacts.mkdirSync_valid _ _ (ValidFacts.valid_dirname _ Hv)), Hv. simpl.
  pose proof (proj1 (ValidFacts.valid_parts _) (ValidFacts.valid_dirname _ Hv))
    as (_ & _ & Hn).
  destruct (FsFacts.mkdirp_then_write fullPath (fs w) data Hf Hn) as (t1 & t2 & Hm & Hw).
  { intros es Hl. apply Hd. unfold Fs.isDirectory. now rewrite Hv, Hl. }
  unfold Path.dirname. rewrite Hm. simpl. rewrite Hw. simpl.
  pose proof (FsFacts.write_lookup _ _ _ _ Hw) as Hl.
  eexists _, _. split; [reflexivity|]. split; [reflexivity|]. simpl.
  fold fullPath. rewrite (existsSync_true _ _ _ Hv Hl), Hv. simpl. rewrite Hl.
  reflexivity.
Qed.

Lemma write_then_read_roundtrip_witness :
  writable home "src/notes.txt"
  /\ Str.isWellFormed "hi" = true
  /\ write_then_read home "src/notes.txt" "hi".
Proof.
  assert (writable home "src/notes.txt") as H.
  { repeat split; [vm_compute; discriminate]. }
  split; [exact H|]. split; [reflexivity|].
  apply (write_then_read_roundtrip home "src/notes.txt" "hi" H). reflexivity.
Defined.

(** C6 as stated fails: a write task whose path names a directory throws,
    and nothing is read back. *)
Lemma write_then_read_fails : ~ write_then_read home "." "hi".
Proof.
  intros (w1 & w2 & H & _). vm_compute in H. discriminate.
Qed.

(** C5, as the code has it: when the target a read task resolves does not
    exist, the task returns null; when the target a contains task resolves
    (its path trimmed, against currentPath) does not exist, the task
    returns false.
    Neither throws, neither changes the filesystem or currentPath, and the
    loop goes on as after any action: the reply is appended to the history
    and the next planner reply is requested. *)
Theorem missing_target_is_not_an_error
    (s : state) (parsed_result : json) (p : string) (fContent : option json) :
  at_ s = PlannerCall ->
  (action_with parsed_result (Some (JStr "read")) (Some (JStr p)) fContent ->
   Fs.existsSync (fs (env s)) (Path.resolve (currentDir (env s)) p) = false ->
   exists w',
     executeTask (Task.Make (Some (JStr "read")) (Some (JStr p)) (Js.or_else fContent (JStr "")))
       (env s) = (Settled (Ok (Some JNull)), w')
     /\ fs w' = fs (env s) /\ currentDir w' = currentDir (env s)
     /\ step s (Reply (Parsed parsed_result))
        = Some (State (message s ++ [record_reply parsed_result]) w' PlannerCall))
  /\
  (action_with parsed_result (Some (JStr "contains")) (Some (JStr p)) fContent ->
   Fs.existsSync (fs (env s)) (Path.resolve (currentDir (env s)) (Str.trim p)) = false ->
   exists w',
     executeTask (Task.Make (Some (JStr "contains")) (Some (JStr p)) (Js.or_else fContent (JStr "")))
       (env s) = (Settled (Ok (Some (JBool false))), w')
     /\ fs w' = fs (env s) /\ currentDir w' = currentDir (env s)
     /\ step s (Reply (Parsed parsed_result))
        = Some (State (message s ++ [record_reply parsed_result]) w' PlannerCall)).
Proof.
  intros Hat.
  split; intros (Hstep & HT & HI & HC) Hex;
    unfold step; rewrite Hat; unfold inner; rewrite Hstep; simpl;
    unfold action; rewrite HT, HI, HC; simpl;
    unfold_tasks; rewrite Hex; simpl; eexists; repeat split.
Qed.


Lemma missing_target_is_not_an_error_witness :
  at_ asking = PlannerCall
  /\ (exists w', step asking (Reply (Parsed (action_reply "read" "notes.txt" "")))
                 = Some (State (message asking ++ [record_reply (action_reply "read" "notes.txt" "")])
                           w' PlannerCall))
  /\ (exists w', step asking (Reply (Parsed (action_reply "contains" " notes.txt" "hi")))
                 = Some (State (message asking ++ [record_reply (action_reply "contains" " notes.txt" "hi")])
                           w' PlannerCall)).
Proof.
  split; [reflexivity|]. split.
  - destruct (proj1 (missing_target_is_not_an_error asking
                       (action_reply "read" "notes.txt" "") "notes.txt" (Some (JStr "")) eq_refl))
      as (w' & _ & _ & _ & H); [repeat split | reflexivity |].
    exists w'. exact H.
  - destruct (proj2 (missing_target_is_not_an_error asking
                       (action_reply "contains" " notes.txt" "hi") " notes.txt" (Some (JStr "hi")) eq_refl))
      as (w' & _ & _ & _ & H); [repeat split | reflexivity |].
    exists w'. exact H.
Defined.

(** C5 as stated fails: [/home/ App.jsx], with the blank, does not exist,
    yet a contains task on [" App.jsx"] finds [/home/App.jsx] and returns
    true. *)
Lemma missing_gives_null_and_false_fails :
  ~ missing_gives_null_and_false home " App.jsx" "Hello".
Proof.
  intros H. destruct (H eq_refl) as [_ Hc]. vm_compute in Hc. discriminate.
Qed.

(** Nor does such a contains task never throw: the blank path [" "] names
    nothing, its trimmed form names the current directory, and reading
    that is refused. *)
Example contains_blank_path_throws :
  Fs.existsSync (fs home) (Path.resolve (currentDir home) " ") = false
  /\ fst (executeTask (task "contains" " " "x") home) = Settled (Throw (SystemError "EISDIR")).
Proof. split; reflexivity. Qed.

(** * The control loop *)

Lemma inner_action (parsed_result : json) (s : state) :
  Js.prop parsed_result "step" = Some (Some (JStr "action")) ->
  inner parsed_result s = action parsed_result s.
Proof. intros H. unfold inner. now rewrite H. Qed.

(** C9: an action reply without [fType] or without [fInput] gets a
    warning and no task is executed (filesystem and currentPath stay as
    they are); the loop is not left: the reply is appended to the history
    as an assistant message and the next planner reply is requested. *)
Theorem action_without_task_fields
    (s : state) (parsed_result : json) (fType fInput fContent : option json) :
  at_ s = PlannerCall ->
  action_with parsed_result fType fInput fContent ->
  fType = None \/ fInput = None ->
  step s (Reply (Parsed parsed_result))
  = Some (State (message s ++ [Msg assistant (Js.stringify parsed_result)])
            (World (currentDir (env s)) (fs (env s))
               (console (env s) ++ [(warn, [Txt "Missing fType or fInput in action step!"])]))
            PlannerCall).
Proof.
  intros Hat (Hstep & HT & HI & HC) Hmiss.
  unfold step. rewrite Hat, (inner_action _ _ Hstep).
  unfold action. rewrite HT, HI, HC.
  assert (Js.truthy fType && Js.defined fInput = false) as ->.
  { destruct Hmiss as [-> | ->]; [reflexivity | apply andb_false_r]. }
  reflexivity.
Qed.

Lemma action_without_task_fields_witness :
  at_ asking = PlannerCall
  /\ step asking (Reply (Parsed (JObj [("step", JStr "action"); ("fInput", JStr "npm install")])))
     = Some (State
               (message asking
                  ++ [Msg assistant
                        (Js.stringify (JObj [("step", JStr "action"); ("fInput", JStr "npm install")]))])
               (World ["home"] disk [(warn, [Txt "Missing fType or fInput in action step!"])])
               PlannerCall).
Proof.
  split; [reflexivity|].
  apply (action_without_task_fields asking
           (JObj [("step", JStr "action"); ("fInput", JStr "npm install")])
           None (Some (JStr "npm install")) None eq_refl).
  - repeat split.
  - now left.
Defined.

(** C1, as the code has it: when the command of a shell action reply
    exits nonzero, the spinner reports the failure, the captured stderr is
    printed, and the task executor throws; the loop does not catch it.
    Nothing is appended to the history for that reply, and the script ends
    with that error: no further planner reply is requested. *)
Theorem shell_failure_ends_the_loop
    (s : state) (parsed_result : json) (command : string) (r : exec_result) :
  at_ s = PlannerCall ->
  shell_action parsed_result command ->
  exit_code r <> 0%Z ->
  exists s',
    run s [Reply (Parsed parsed_result); ExecDone r] = Some s'
    /\ at_ s' = Crashed (ExecError (exit_code r))
    /\ message s' = message s
    /\ console (env s')
       = (console (env s)
          ++ [(spinner_start, [Txt ("Running: " ++ command)]);
              (spinner_fail, [Txt ("Failed: " ++ command)]);
              (error, [Txt ("❌ Error:" ++ nl ++ stderr r)])])%list
    /\ forall e, step s' e = None.
Proof.
  intros Hat (fContent & Hstep & HT & HI & HC) Hexit.
  unfold run, step at 1. rewrite Hat, (inner_action _ _ Hstep).
  unfold action. rewrite HT, HI, HC. simpl.
  unfold step. simpl.
  unfold executeTask_resume, runShellCommand_callback, bind, spinner, console_error, throw. simpl.
  apply Z.eqb_neq in Hexit. rewrite Hexit. simpl.
  eexists. split; [reflexivity|]. simpl. repeat split.
  now rewrite <- !List.app_assoc.
Qed.


Lemma shell_failure_ends_the_loop_witness :
  at_ asking = PlannerCall
  /\ shell_action (action_reply "shell" "false" "") "false"
  /\ exit_code exit_one <> 0%Z
  /\ exists s',
       run asking [Reply (Parsed (action_reply "shell" "false" "")); ExecDone exit_one] = Some s'
       /\ at_ s' = Crashed (ExecError 1)
       /\ message s' = message asking.
Proof.
  assert (shell_action (action_reply "shell" "false" "") "false") as Hsh
    by (exists (Some (JStr "")); repeat split).
  assert (exit_code exit_one <> 0%Z) as Hne by discriminate.
  repeat split; try assumption.
  destruct (shell_failure_ends_the_loop asking _ _ exit_one eq_refl Hsh Hne)
    as (s' & Hrun & Hat & Hmsg & _).
  exists s'. repeat split; assumption.
Defined.

(** C1 as stated fails: after [false] has exited with status 1 the loop
    is not waiting for a planner reply, and the history has not grown. *)
Lemma shell_failure_survived_fails :
  ~ shell_failure_survived asking (action_reply "shell" "false" "") exit_one.
Proof.
  intros (s' & m & Hrun & Hat & _). vm_compute in Hrun.
  injection Hrun as <-. discriminate.
Qed.






Lemma goto_same (s : state) : goto (at_ s) s = s.
Proof. now destruct s. Qed.

Lemma is_str_eq (v : option json) (lit : string) :
  Js.is_str v lit = true -> v = Some (JStr lit).
Proof.
  destruct v as [[]|]; simpl; try discriminate.
  now intros ->%String.eqb_eq.
Qed.

Lemma unrecognized_skipped (s : state) (parsed_result : json) :
  at_ s = PlannerCall -> unrecognized parsed_result = true ->
  step s (Reply (Parsed parsed_result)) = Some s.
Proof.
  intros Hat Hun. unfold step. rewrite Hat. unfold inner.
  unfold unrecognized in Hun.
  destruct (Js.prop parsed_result "step") as [st|]; [|discriminate].
  apply negb_true_iff in Hun. unfold handled in Hun.
  apply orb_false_elim in Hun as [Hun Hd].
  apply orb_false_elim in Hun as [Hun Hc].
  apply orb_false_elim in Hun as [Ha Hb].
  rewrite Ha, Hb, Hc, Hd. rewrite <- Hat. now rewrite goto_same.
Qed.

(** C2, as the code has it: a planner reply that is not valid JSON makes
    [JSON.parse] throw, and the JSON value null makes the read of its
    [step] throw; the loop catches neither, logs nothing and ends with the
    error, after which nothing more happens.  A reply that is valid JSON
    but whose [step] is missing or none of analyze, convert, output and
    action (the value exit is one of those) is passed over in silence:
    the state is exactly what it was, so a fresh planner reply is
    requested, and this goes on for any number of such replies in a row. *)
Theorem protocol_violation_handling (s : state) :
  at_ s = PlannerCall ->
  (forall raw,
      step s (Reply (NotJSON raw))
      = Some (State (message s) (env s) (Crashed (SyntaxError raw))))
  /\ step s (Reply (Parsed JNull))
     = Some (State (message s) (env s) (Crashed (TypeError "Cannot read properties of null")))
  /\ (forall replies,
        forallb unrecognized replies = true ->
        run s (map (fun v => Reply (Parsed v)) replies) = Some s)
  /\ (forall s' x e, at_ s' = Crashed x -> step s' e = None)
  /\ unrecognized (JObj [("step", JStr "exit")]) = true
  /\ unrecognized (JObj [("phase", JStr "analyze")]) = true.
Proof.
  intros Hat. repeat split.
  - intros raw. unfold step. now rewrite Hat.
  - unfold step. now rewrite Hat.
  - intros replies. induction replies as [|v replies IH]; simpl; [reflexivity|].
    intros [Hv Hrest]%andb_true_iff.
    rewrite (unrecognized_skipped s v Hat Hv). now apply IH.
  - intros s' x e Hc. unfold step. now rewrite Hc.
Qed.

Lemma protocol_violation_handling_witness :
  at_ asking = PlannerCall
  /\ step asking (Reply (NotJSON "Sure, here is the plan"))
     = Some (State (message asking) (env asking) (Crashed (SyntaxError "Sure, here is the plan")))
  /\ run asking (map (fun v => Reply (Parsed v))
                   [JObj [("step", JStr "exit")]; JStr "analyze"; JObj []; JArr []])
     = Some asking.
Proof.
  destruct (protocol_violation_handling asking eq_refl) as (H1 & _ & H3 & _).
  split; [reflexivity|]. split; [apply H1 | apply H3; reflexivity].
Defined.

(** C2 as stated fails: after a reply that is not JSON the loop is
    neither asking the planner again nor back at the prompt. *)
Lemma violation_recovered_fails :
  ~ violation_recovered asking (NotJSON "Sure, here is the plan").
Proof.
  intros (s' & Hstep & [Hat|Hat] & _); vm_compute in Hstep;
    injection Hstep as <-; discriminate.
Qed.

(** What one event that is not a prompt line does to the history:
    either the script has ended, or the length of the history, with the
    record still owed for a command in flight, grows by one for a phase
    reply and stays for any other event. *)
Ltac count_messages Hat :=
  right; simpl; rewrite ?length_app, ?Hat; simpl; lia.

Lemma step_count (s : state) (e : event) (s' : state) :
  step s e = Some s' ->
  is_line e = false ->
  running (at_ s) = true
  /\ ((running (at_ s') = false /\ between_replies (at_ s') = false)
      \/ length (message s') + pending_record (at_ s')
         = length (message s) + pending_record (at_ s) + (if is_phase e then 1 else 0)).
Proof.
  unfold step.
  destruct (at_ s) eqn:Hat; destruct e as [answer|[|raw|pr]|r];
    simpl; try discriminate; intros Hs _; (split; [reflexivity|]).
  - injection Hs as <-. now left.
  - injection Hs as <-. now left.
  - injection Hs as <-. unfold inner.
    destruct (Js.prop pr "step") as [st|] eqn:Hst; [|now left].
    destruct (Js.is_str st "analyze") eqn:Ha.
    { apply is_str_eq in Ha. subst st. count_messages Hat. }
    destruct (Js.is_str st "convert") eqn:Hc.
    { apply is_str_eq in Hc. subst st. count_messages Hat. }
    destruct (Js.is_str st "output") eqn:Ho.
    { apply is_str_eq in Ho. subst st. count_messages Hat. }
    simpl.
    destruct (Js.is_str st "action") eqn:Hact; [|count_messages Hat].
    unfold action.
    destruct (Js.prop pr "fType") as [fType|]; [|now left].
    destruct (Js.prop pr "fInput") as [fInput|]; [|now left].
    destruct (Js.prop pr "fContent") as [fContent|]; [|now left].
    destruct (Js.truthy fType && Js.defined fInput).
    + destruct (executeTask _ _) as [[[v|x]|cmd] w]; simpl.
      * count_messages Hat.
      * now left.
      * count_messages Hat.
    + count_messages Hat.
  - destruct (executeTask_resume command r (env s)) as [[v|x] w];
      injection Hs as <-; simpl.
    + count_messages Hat.
    + now left.
Qed.

Lemma run_count (events : list event) (s s' : state) :
  run s events = Some s' ->
  forallb (fun e => negb (is_line e)) events = true ->
  between_replies (at_ s') = true ->
  running (at_ s) = true ->
  length (message s') + pending_record (at_ s')
  = length (message s) + pending_record (at_ s) + phases events.
Proof.
  revert s. induction events as [|e events IH]; intros s Hrun Hnl Hend Hgo.
  - injection Hrun as <-. unfold phases. simpl. lia.
  - simpl in Hrun, Hnl. apply andb_true_iff in Hnl as [He Hnl].
    apply negb_true_iff in He.
    destruct (step s e) as [s1|] eqn:Hstep; [|discriminate].
    destruct (step_count _ _ _ Hstep He) as [_ Hcount].
    assert (phases (e :: events) = (if is_phase e then 1 else 0) + phases events) as ->.
    { unfold phases. simpl. now destruct (is_phase e). }
    destruct events as [|e' events].
    + injection Hrun as <-. unfold phases. simpl.
      destruct Hcount as [[_ Hb]|Hcount]; [congruence | lia].
    + destruct (running (at_ s1)) eqn:Hgo1.
      * specialize (IH s1 Hrun Hnl Hend Hgo1).
        destruct Hcount as [[Hr _]|Hcount]; [congruence | lia].
      * exfalso. simpl in Hrun, Hnl. apply andb_true_iff in Hnl as [He' _].
        apply negb_true_iff in He'.
        destruct (step s1 e') as [s2|] eqn:Hstep'; [|discriminate].
        destruct (step_count _ _ _ Hstep' He') as [Hr _]. congruence.
Qed.

(** C7, as the code has it: within one prompt cycle, after the prompt is
    taken in and K replies with phase analyze, convert or action have been
    dealt with, the history is as long as it was when the cycle began,
    plus 1 for the user message, plus K.  In the first cycle, which begins
    with the system message alone, that is 1 + 1 + K. *)
Theorem history_length_in_cycle
    (s : state) (prompt : string) (events : list event) (s' : state) :
  at_ s = AwaitingPrompt ->
  prompt <> "exit" ->
  forallb (fun e => negb (is_line e)) events = true ->
  run s (Line (Ok prompt) :: events) = Some s' ->
  between_replies (at_ s') = true ->
  length (message s') = length (message s) + 1 + phases events
  /\ (length (message s) = 1 -> length (message s') = 1 + 1 + phases events).
Proof.
  intros Hat Hne Hnl Hrun Hend.
  assert (length (message s') = length (message s) + 1 + phases events) as H.
  { simpl in Hrun. unfold step in Hrun. rewrite Hat in Hrun. unfold outer in Hrun.
    apply String.eqb_neq in Hne. rewrite Hne in Hrun.
    pose proof (run_count events _ s' Hrun Hnl Hend eq_refl) as Hc.
    simpl in Hc. rewrite length_app in Hc. simpl in Hc.
    destruct (at_ s'); simpl in Hend, Hc; try discriminate; lia. }
  split; [exact H | intros H1; lia].
Qed.


Lemma history_length_in_cycle_witness :
  exists s',
    run after_first_cycle (Line (Ok "again") :: second_cycle) = Some s'
    /\ at_ s' = PlannerCall
    /\ length (message s') = 2 + 1 + 2.
Proof.
  eexists. split; [reflexivity|]. split; [reflexivity|].
  apply (history_length_in_cycle after_first_cycle "again" second_cycle);
    [reflexivity | discriminate | reflexivity | reflexivity | reflexivity].
Defined.

(** C7 as stated fails: in the second prompt cycle of a run the history
    already holds the first cycle's messages, so after one analyze reply
    it has 4 messages, not 1 + 1 + 1. *)
Lemma history_is_two_plus_phases_fails :
  run start [Line (Ok "hello"); Reply (Parsed (JObj [("step", JStr "output")]))]
  = Some after_first_cycle
  /\ ~ history_is_two_plus_phases after_first_cycle "again"
         [Reply (Parsed (JObj [("step", JStr "analyze")]))].
Proof.
  split; [reflexivity|]. intros H.
  specialize (H _ eq_refl ltac:(discriminate) eq_refl eq_refl eq_refl).
  vm_compute in H. discriminate.
Qed.

Lemma added_nothing (s s' : state) : message s' = message s -> added_by s s' [].
Proof. intros H. split; [now rewrite List.app_nil_r | constructor]. Qed.

Lemma added_one (s s' : state) (m : Message) :
  message s' = (message s ++ [m])%list ->
  role m = user \/ role m = assistant ->
  added_by s s' [m].
Proof. intros H Hr. split; [assumption | constructor; [assumption | constructor]]. Qed.

(** Every step leaves the history as it was or puts one user or
    assistant message at its end. *)
Lemma step_appends (s : state) (e : event) (s' : state) :
  step s e = Some s' -> exists suffix, added_by s s' suffix.
Proof.
  unfold step.
  destruct (at_ s) eqn:Hat; destruct e as [answer|[|raw|pr]|r];
    simpl; try discriminate; intros Hs.
  - injection Hs as <-. unfold outer. destruct answer as [prompt|x].
    + destruct (String.eqb prompt "exit").
      * exists []. now apply added_nothing.
      * exists [Msg user prompt]. apply added_one; [reflexivity | now left].
    + exists []. now apply added_nothing.
  - injection Hs as <-. exists []. now apply added_nothing.
  - injection Hs as <-. exists []. now apply added_nothing.
  - injection Hs as <-. unfold inner.
    destruct (Js.prop pr "step") as [st|] eqn:Hst; [|exists []; now apply added_nothing].
    destruct (Js.is_str st "analyze") eqn:Ha.
    { apply is_str_eq in Ha. subst st. simpl.
      exists [record_reply pr]. apply added_one; [reflexivity | now right]. }
    destruct (Js.is_str st "convert") eqn:Hc.
    { apply is_str_eq in Hc. subst st. simpl.
      exists [record_reply pr]. apply added_one; [reflexivity | now right]. }
    destruct (Js.is_str st "output"); [exists []; now apply added_nothing|].
    destruct (Js.is_str st "action"); [|exists []; now apply added_nothing].
    unfold action.
    destruct (Js.prop pr "fType") as [fType|]; [|exists []; now apply added_nothing].
    destruct (Js.prop pr "fInput") as [fInput|]; [|exists []; now apply added_nothing].
    destruct (Js.prop pr "fContent") as [fContent|]; [|exists []; now apply added_nothing].
    destruct (Js.truthy fType && Js.defined fInput).
    + destruct (executeTask _ _) as [[[v|x]|cmd] w]; simpl.
      * exists [record_reply pr]. apply added_one; [reflexivity | now right].
      * exists []. now apply added_nothing.
      * exists []. now apply added_nothing.
    + exists [record_reply pr]. apply added_one; [reflexivity | now right].
  - destruct (executeTask_resume command r (env s)) as [[v|x] w];
      injection Hs as <-; simpl.
    + exists [record_reply parsed_result]. apply added_one; [reflexivity | now right].
    + exists []. now apply added_nothing.
Qed.

Lemma run_appends (events : list event) (s s' : state) :
  run s events = Some s' -> exists suffix, added_by s s' suffix.
Proof.
  revert s. induction events as [|e events IH]; intros s Hrun; simpl in Hrun.
  - injection Hrun as <-. exists []. now apply added_nothing.
  - destruct (step s e) as [s1|] eqn:Hstep; [|discriminate].
    destruct (step_appends _ _ _ Hstep) as (l1 & H1 & F1).
    destruct (IH _ Hrun) as (l2 & H2 & F2).
    exists (l1 ++ l2)%list. split.
    + rewrite H2, H1. now rewrite <- List.app_assoc.
    + now apply Forall_app.
Qed.

(** C8: at every point of a run of the script the history is the system
    message it was created with followed by user and assistant messages
    only, so it holds exactly one system message, in first place and
    unchanged; and whatever happens next only puts user or assistant
    messages at the end of the history, which therefore never gets
    shorter. *)
Theorem history_invariant
    (system_prompt : string) (cwd : list string) (d : node)
    (events : list event) (s : state) :
  run (initial system_prompt cwd d) events = Some s ->
  (exists rest,
      message s = Msg system system_prompt :: rest
      /\ Forall (fun m => role m = user \/ role m = assistant) rest
      /\ length (List.filter (fun m => match role m with system => true | _ => false end)
                   (message s)) = 1)
  /\ (forall more s',
        run s more = Some s' ->
        exists suffix,
          message s' = (message s ++ suffix)%list
          /\ Forall (fun m => role m = user \/ role m = assistant) suffix
          /\ length (message s) <= length (message s')).
Proof.
  intros Hrun. split.
  - destruct (run_appends _ _ _ Hrun) as (rest & Hm & Hr). simpl in Hm.
    exists rest. repeat split; try assumption.
    rewrite Hm. simpl. f_equal.
    clear Hm. induction Hr as [|m rest [Hu|Ha] _ IH]; simpl; [reflexivity| |].
    + now rewrite Hu.
    + now rewrite Ha.
  - intros more s' Hmore. destruct (run_appends _ _ _ Hmore) as (suffix & Hm & Hr).
    exists suffix. repeat split; try assumption.
    rewrite Hm, length_app. lia.
Qed.

Lemma history_invariant_witness :
  exists s,
    run start (Line (Ok "hello") :: Reply (Parsed (JObj [("step", JStr "output")]))
               :: Line (Ok "again") :: second_cycle) = Some s
    /\ exists rest,
         message s = Msg system "You are an Expert Developer." :: rest
         /\ length rest = 4.
Proof.
  eexists. split; [reflexivity|].
  destruct (history_invariant "You are an Expert Developer." ["home"] disk
              (Line (Ok "hello") :: Reply (Parsed (JObj [("step", JStr "output")]))
               :: Line (Ok "again") :: second_cycle) _ eq_refl)
    as [(rest & Hm & _) _].
  exists rest. split; [exact Hm|].
  injection Hm as <-. reflexivity.
Defined.

(** The scenario of the specification: asked to create [notes.txt] with
    content [hi], the planner analyzes, converts, acts and outputs; the
    file is there, the cycle is over and the history holds five
    messages. *)
Example scenario_notes :
  exists s,
    run start
      [Line (Ok "create file notes.txt with content 'hi'");
       Reply (Parsed (JObj [("step", JStr "analyze"); ("content", JStr "User wants a file")]));
       Reply (Parsed (JObj [("step", JStr "convert"); ("PHASES", JArr [JStr "write notes.txt"])]));
       Reply (Parsed (action_reply "write" "notes.txt" "hi"));
       Reply (Parsed (JObj [("step", JStr "output"); ("content", JStr "done")]))] = Some s
    /\ at_ s = AwaitingPrompt
    /\ Fs.lookup (fs (env s)) ["home"; "notes.txt"] = Some (File "hi")
    /\ length (message s) = 5.
Proof. eexists. repeat split. Qed.

(** * Beyond the specification: more of what the code does *)

(** * More facts about the filesystem *)

Module FsFrame.
Import Fs.

Lemma lookup_file_nil (d : string) (q : list string) (n : node) :
  lookup (File d) q = Some n -> q = [].
Proof. destruct q; [reflexivity | discriminate]. Qed.

(** Writing over a regular file that is there goes through. *)
Lemma write_existing (t : node) (p : list string) (c d : string) :
  lookup t p = Some (File c) -> exists t', write t p d = Ok t'.
Proof.
  revert t. induction p as [|x p IH]; intros [c0|es]; simpl; try discriminate; eauto.
  destruct (es !! x) as [t0|] eqn:E; [|discriminate].
  intros H. destruct (IH _ H) as (t' & ->). eauto.
Qed.

(** A write changes no regular file but its target. *)
Lemma write_frame (t : node) (p : list string) (d : string) (t' : node)
    (q : list string) (c : string) :
  write t p d = Ok t' -> q <> p ->
  lookup t q = Some (File c) -> lookup t' q = Some (File c).
Proof.
  revert t t' q. induction p as [|x p IH]; intros [c0|es] t' q; simpl; try discriminate.
  - intros _ Hne Hq. apply lookup_file_nil in Hq. congruence.
  - destruct (es !! x) as [t0|] eqn:E.
    + destruct (write t0 p d) as [t1|] eqn:W; [|discriminate].
      intros [= <-] Hne. destruct q as [|y q]; [discriminate|]. simpl.
      destruct (decide (x = y)) as [<-|Hxy].
      * rewrite E, lookup_insert_eq. apply (IH _ _ _ W). congruence.
      * now rewrite lookup_insert_ne.
    + destruct p; [|discriminate]. intros [= <-] Hne.
      destruct q as [|y q]; [discriminate|]. simpl.
      destruct (decide (x = y)) as [<-|Hxy].
      * now rewrite E.
      * now rewrite lookup_insert_ne.
Qed.

(** [mkdir -p] changes no regular file. *)
Lemma mkdirp_frame (t : node) (p : list string) (t' : node) (stop : option exn)
    (q : list string) (c : string) :
  mkdirp t p = (t', stop) ->
  lookup t q = Some (File c) -> lookup t' q = Some (File c).
Proof.
  revert t t' stop q. induction p as [|x p IH]; intros [c0|es] t' stop q; simpl;
    try (now intros [= <- _]).
  destruct (Path.nameTooLong x); [now intros [= <- _]|].
  destruct (mkdirp (default (Dir ∅) (es !! x)) p) as [t1 stop1] eqn:M.
  intros [= <- _]. destruct q as [|y q]; [discriminate|]. simpl.
  destruct (decide (x = y)) as [<-|Hxy].
  - rewrite lookup_insert_eq. destruct (es !! x) as [t0|] eqn:E; [|discriminate].
    simpl in M. now apply (IH _ _ _ _ M).
  - now rewrite lookup_insert_ne.
Qed.

(** [fs.mkdirSync] changes no regular file, whether it throws or not. *)
Lemma mkdirSync_frame (t : node) (p : list string) (t' : node) (stop : option exn)
    (q : list string) (c : string) :
  mkdirSync t p = (t', stop) ->
  lookup t q = Some (File c) -> lookup t' q = Some (File c).
Proof.
  unfold mkdirSync.
  destruct (negb (Path.nulFree p)); [now intros [= <- _]|].
  destruct (Path.tooLong p); [now intros [= <- _]|].
  apply mkdirp_frame.
Qed.

(** What [remove] takes out is gone with everything below it ... *)
Lemma remove_gone (t : node) (p : list string) (t' : node) (rest : list string) :
  remove t p = Some t' -> lookup t' (p ++ rest) = None.
Proof.
  revert t t'. induction p as [|x p IH]; intros [c0|es] t'; simpl; try discriminate.
  destruct (es !! x) as [t0|] eqn:E; [|discriminate].
  destruct p as [|y p].
  - intros [= <-]. simpl. now rewrite lookup_delete_eq.
  - destruct (remove t0 (y :: p)) as [t1|] eqn:R; [|discriminate].
    intros [= <-]. rewrite lookup_insert_eq. now apply IH with t0.
Qed.

(** ... and nothing that is not below it is touched, unless it is a
    directory on the way to it. *)
Lemma remove_frame (t : node) (p : list string) (t' : node) (q : list string) (c : string) :
  remove t p = Some t' ->
  ~ p `prefix_of` q ->
  lookup t q = Some (File c) -> lookup t' q = Some (File c).
Proof.
  revert t t' q. induction p as [|x p IH]; intros [c0|es] t' q; simpl; try discriminate.
  destruct (es !! x) as [t0|] eqn:E; [|discriminate].
  intros Hr Hnp. destruct q as [|y q]; [discriminate|]. simpl.
  destruct (decide (x = y)) as [<-|Hxy].
  - rewrite E. destruct p as [|z p].
    + exfalso. apply Hnp. now exists q.
    + destruct (remove t0 (z :: p)) as [t1|] eqn:R; [|discriminate].
      injection Hr as <-. rewrite lookup_insert_eq.
      apply (IH _ _ _ R). intros [k Hk]. apply Hnp. exists k. simpl. now rewrite Hk.
  - destruct p as [|z p].
    + injection Hr as <-. now rewrite lookup_delete_ne.
    + destruct (remove t0 (z :: p)) as [t1|] eqn:R; [|discriminate].
      injection Hr as <-. now rewrite lookup_insert_ne.
Qed.

Lemma remove_present (t : node) (p : list string) (n : node) :
  p <> [] -> lookup t p = Some n -> exists t', remove t p = Some t'.
Proof.
  revert t. induction p as [|x p IH]; intros [c0|es] Hne; simpl; try discriminate;
    try contradiction.
  destruct (es !! x) as [t0|] eqn:E; [|discriminate].
  destruct p as [|y p]; [eauto|].
  intros H. destruct (IH t0 ltac:(discriminate) H) as (t1 & ->). eauto.
Qed.

End FsFrame.

(** * More about the task functions *)

(** An edit task whose target does not exist changes nothing: whatever
    [fContent] holds, a warning is printed, filesystem and currentPath
    stay as they are, the reply is appended and the next planner reply is
    requested. *)
Theorem edit_missing_target_is_skipped
    (s : state) (parsed_result : json) (p : string) (fContent : option json) :
  at_ s = PlannerCall ->
  action_with parsed_result (Some (JStr "edit")) (Some (JStr p)) fContent ->
  Fs.existsSync (fs (env s)) (Path.resolve (currentDir (env s)) p) = false ->
  step s (Reply (Parsed parsed_result))
  = Some (State (message s ++ [record_reply parsed_result])
            (World (currentDir (env s)) (fs (env s))
               (console (env s)
                ++ [(warn, [Txt "⚠️ Cannot edit, file not found:";
                            Txt (Path.show (Path.resolve (currentDir (env s)) p))])]))
            PlannerCall).
Proof.
  intros Hat (Hstep & HT & HI & HC) Hex.
  unfold step. rewrite Hat, (inner_action _ _ Hstep).
  unfold action. rewrite HT, HI, HC. simpl.
  unfold_tasks. rewrite Hex. reflexivity.
Qed.

Lemma edit_missing_target_is_skipped_witness :
  at_ asking = PlannerCall
  /\ exists s',
       step asking (Reply (Parsed (action_reply "edit" "notes.txt" "hi"))) = Some s'
       /\ fs (env s') = disk /\ at_ s' = PlannerCall.
Proof.
  split; [reflexivity|]. eexists. split.
  - apply (edit_missing_target_is_skipped asking (action_reply "edit" "notes.txt" "hi")
             "notes.txt" (Some (JStr "hi")) eq_refl); [repeat split | reflexivity].
  - split; reflexivity.
Defined.

(** An edit task on an existing regular file, with a string (of
    well-formed text) for content, overwrites it and nothing else: a read
    task on the same path right after returns the new content,
    currentPath is unchanged, and every other regular file keeps its
    content.  With anything but a string for content the task throws a
    TypeError and overwrites nothing. *)
Theorem edit_then_read (w : world) (p : string) (content : option json) (old : string) :
  let fullPath := Path.resolve (currentDir w) p in
  Path.valid fullPath = true ->
  Fs.lookup (fs w) fullPath = Some (File old) ->
  match content with
  | Some (JStr data) =>
      Str.isWellFormed data = true ->
      exists w1 w2,
        executeTask (task "edit" p data) w = (Settled (Ok None), w1)
        /\ currentDir w1 = currentDir w
        /\ executeTask (task "read" p "") w1 = (Settled (Ok (Some (JStr data))), w2)
        /\ forall q c, q <> fullPath ->
             Fs.lookup (fs w) q = Some (File c) -> Fs.lookup (fs w1) q = Some (File c)
  | _ =>
      executeTask (Task.Make (Some (JStr "edit")) (Some (JStr p)) content) w
      = (Settled (Throw (TypeError "ERR_INVALID_ARG_TYPE")), w)
  end.
Proof.
  intros fullPath Hv Hl.
  assert (is_string content = false ->
          executeTask (Task.Make (Some (JStr "edit")) (Some (JStr p)) content) w
          = (Settled (Throw (TypeError "ERR_INVALID_ARG_TYPE")), w)) as Hrefuse.
  { intros Hc. unfold_tasks. fold fullPath.
    unfold Fs.existsSync. rewrite Hv, Hl. simpl.
    destruct content as [[]|]; try discriminate; reflexivity. }
  destruct content as [[| | |data| |]|]; try (now apply Hrefuse).
  intros _. unfold_tasks. fold fullPath.
  unfold Fs.existsSync, Fs.writeFileSync, Fs.readFileSync. rewrite Hv, Hl. simpl.
  destruct (FsFrame.write_existing _ _ _ data Hl) as (t' & Hw). rewrite Hw. simpl.
  pose proof (FsFacts.write_lookup _ _ _ _ Hw) as Hl'.
  eexists _, _. split; [reflexivity|]. split; [reflexivity|]. simpl. fold fullPath.
  rewrite Hv, Hl'. simpl. rewrite Hl'. split; [reflexivity|].
  intros q c Hq Hc. now apply (FsFrame.write_frame _ _ _ _ _ _ Hw).
Qed.

Lemma edit_then_read_witness :
  Fs.lookup (fs home) (Path.resolve (currentDir home) "App.jsx") = Some (File "Hello World")
  /\ (exists w1 w2,
        executeTask (task "edit" "App.jsx" "Bye") home = (Settled (Ok None), w1)
        /\ executeTask (task "read" "App.jsx" "") w1 = (Settled (Ok (Some (JStr "Bye"))), w2))
  /\ executeTask (Task.Make (Some (JStr "edit")) (Some (JStr "App.jsx")) (Some (JNum "7"))) home
     = (Settled (Throw (TypeError "ERR_INVALID_ARG_TYPE")), home).
Proof.
  split; [reflexivity|]. split.
  - destruct (edit_then_read home "App.jsx" (Some (JStr "Bye")) "Hello World"
                eq_refl eq_refl eq_refl)
      as (w1 & w2 & H1 & _ & H2 & _).
    now exists w1, w2.
  - exact (edit_then_read home "App.jsx" (Some (JNum "7")) "Hello World" eq_refl eq_refl).
Defined.



(** A cd task that completes never alters a regular file, and when its
    target is already a directory it leaves the whole filesystem as it
    is. *)
Theorem cd_keeps_files (w : world) (p : string) (w1 : world) :
  executeTask (task "cd" p "") w = (Settled (Ok None), w1) ->
  (forall q c, Fs.lookup (fs w) q = Some (File c) -> Fs.lookup (fs w1) q = Some (File c))
  /\ (forall es, Fs.lookup (fs w) (Path.resolve (currentDir w) p) = Some (Dir es) ->
        fs w1 = fs w).
Proof.
  unfold_tasks. set (target := Path.resolve (currentDir w) p).
  unfold Fs.existsSync, Fs.isDirectory.
  destruct (Path.valid target) eqn:Hv; simpl.
  - destruct (Fs.lookup (fs w) target) as [[d|es0]|] eqn:Hl; simpl; rewrite ?Hl; simpl.
    + destruct (Fs.mkdirSync (fs w) target) as [t1 [e|]] eqn:Hm; simpl; [discriminate|].
      intros [= <-]. simpl. split; [|discriminate].
      intros q c Hc. now apply (FsFrame.mkdirSync_frame _ _ _ _ _ _ Hm).
    + intros [= <-]. simpl. split; [tauto | reflexivity].
    + destruct (Fs.mkdirSync (fs w) target) as [t1 [e|]] eqn:Hm; simpl; [discriminate|].
      intros [= <-]. simpl. split; [|discriminate].
      intros q c Hc. now apply (FsFrame.mkdirSync_frame _ _ _ _ _ _ Hm).
  - destruct (FsFacts.mkdirSync_refused (fs w) _ Hv) as (t' & e & ->). discriminate.
Qed.

Lemma cd_keeps_files_witness :
  exists w1,
    executeTask (task "cd" "src/components" "") home = (Settled (Ok None), w1)
    /\ Fs.lookup (fs w1) ["home"; "App.jsx"] = Some (File "Hello World").
Proof.
  eexists. split; [reflexivity|].
  eapply (proj1 (cd_keeps_files home "src/components" _ eq_refl)). reflexivity.
Defined.

(** A read, contains or edit task whose target is a directory is not
    absorbed like a missing file: the loop does not catch what is thrown,
    and the script ends with that error without appending the reply or
    changing the filesystem.  For read and contains it is the EISDIR of
    [fs]; for edit it is EISDIR when the content is a string (a missing or
    falsy [fContent] counts as the empty string) and the TypeError of
    [fs.writeFileSync] when the content is a truthy value that is not a
    string. *)
Theorem directory_target_ends_the_loop
    (s : state) (parsed_result : json) (p : string) (fType fContent : option json)
    (es : gmap string node) :
  at_ s = PlannerCall ->
  action_with parsed_result fType (Some (JStr p)) fContent ->
  (let target := Path.resolve (currentDir (env s)) p in
   (fType = Some (JStr "read") \/ fType = Some (JStr "edit"))
   /\ Path.valid target = true /\ Fs.lookup (fs (env s)) target = Some (Dir es))
  \/
  (let target := Path.resolve (currentDir (env s)) (Str.trim p) in
   fType = Some (JStr "contains")
   /\ Path.valid target = true /\ Fs.lookup (fs (env s)) target = Some (Dir es)) ->
  step s (Reply (Parsed parsed_result))
  = Some (State (message s) (env s)
            (Crashed
               (if Js.is_str fType "edit" && negb (is_string (Js.or_else fContent (JStr "")))
                then TypeError "ERR_INVALID_ARG_TYPE"
                else SystemError "EISDIR"))).
Proof.
  intros Hat (Hstep & HT & HI & HC) Hcase.
  unfold step. rewrite Hat, (inner_action _ _ Hstep).
  unfold action. rewrite HT, HI, HC.
  destruct Hcase as [([-> | ->] & Hv & Hl) | (-> & Hv & Hl)]; simpl.
  - unfold_tasks. unfold Fs.existsSync, Fs.readFileSync. rewrite Hv, Hl. simpl.
    rewrite Hl. now destruct s.
  - unfold_tasks. unfold Fs.existsSync, Fs.writeFileSync.
    rewrite Hv, Hl. simpl.
    assert (forall data, Fs.write (fs (env s)) (Path.resolve (currentDir (env s)) p) data
                         = Throw (SystemError "EISDIR")) as Hw.
    { intros data. revert Hl. generalize (fs (env s)).
      generalize (Path.resolve (currentDir (env s)) p).
      induction l as [|x l IH]; intros [c0|es0]; simpl; try discriminate; [reflexivity|].
      destruct (es0 !! x) as [t0|]; [|discriminate].
      intros H. now rewrite (IH _ H). }
    destruct (Js.or_else fContent (JStr "")) as [[| | |data| |]|]; simpl;
      rewrite ?Hw; now destruct s.
  - unfold_tasks. unfold Fs.existsSync, Fs.readFileSync. rewrite Hv, Hl. simpl.
    rewrite Hl. now destruct s.
Qed.

Lemma directory_target_ends_the_loop_witness :
  at_ asking = PlannerCall
  /\ step asking (Reply (Parsed (action_reply "read" "." "")))
     = Some (State (message asking) home (Crashed (SystemError "EISDIR")))
  /\ step asking (Reply (Parsed (action_reply "contains" " . " "x")))
     = Some (State (message asking) home (Crashed (SystemError "EISDIR")))
  /\ step asking (Reply (Parsed (action_reply "edit" "." "x")))
     = Some (State (message asking) home (Crashed (SystemError "EISDIR")))
  /\ step asking (Reply (Parsed (JObj [("step", JStr "action"); ("fType", JStr "edit");
                                        ("fInput", JStr "."); ("fContent", JNum "7")])))
     = Some (State (message asking) home (Crashed (TypeError "ERR_INVALID_ARG_TYPE"))).
Proof.
  split; [reflexivity|]. split; [|split; [|split]].
  - apply (directory_target_ends_the_loop asking (action_reply "read" "." "") "."
             (Some (JStr "read")) (Some (JStr ""))
             (<["App.jsx" := File "Hello World"]> ∅) eq_refl); [repeat split|].
    left. split; [now left | split; reflexivity].
  - apply (directory_target_ends_the_loop asking (action_reply "contains" " . " "x") " . "
             (Some (JStr "contains")) (Some (JStr "x"))
             (<["App.jsx" := File "Hello World"]> ∅) eq_refl); [repeat split|].
    right. split; [reflexivity | split; reflexivity].
  - apply (directory_target_ends_the_loop asking (action_reply "edit" "." "x") "."
             (Some (JStr "edit")) (Some (JStr "x"))
             (<["App.jsx" := File "Hello World"]> ∅) eq_refl); [repeat split|].
    left. split; [now right | split; reflexivity].
  - apply (directory_target_ends_the_loop asking
             (JObj [("step", JStr "action"); ("fType", JStr "edit");
                    ("fInput", JStr "."); ("fContent", JNum "7")]) "."
             (Some (JStr "edit")) (Some (JNum "7"))
             (<["App.jsx" := File "Hello World"]> ∅) eq_refl); [repeat split|].
    left. split; [now right | split; reflexivity].
Defined.

(** A path task (read, write, edit, cd) whose [fInput] is present but not
    a string - null included, which passes the missing-field guard - is
    refused by [path.resolve]: the loop ends with a TypeError, nothing is
    appended and the filesystem and currentPath are untouched. *)
Theorem non_string_path_ends_the_loop
    (s : state) (parsed_result : json) (kind : string) (v : json) (fContent : option json) :
  at_ s = PlannerCall ->
  action_with parsed_result (Some (JStr kind)) (Some v) fContent ->
  In kind ["read"; "write"; "edit"; "cd"] ->
  (forall p, v <> JStr p) ->
  step s (Reply (Parsed parsed_result))
  = Some (State (message s) (env s) (Crashed (TypeError "ERR_INVALID_ARG_TYPE"))).
Proof.
  intros Hat (Hstep & HT & HI & HC) Hk Hv.
  unfold step. rewrite Hat, (inner_action _ _ Hstep).
  unfold action. rewrite HT, HI, HC.
  assert (Js.truthy (Some (JStr kind)) && Js.defined (Some v) = true) as ->.
  { simpl in Hk. destruct Hk as [<-|[<-|[<-|[<-|[]]]]]; reflexivity. }
  simpl in Hk.
  destruct Hk as [<-|[<-|[<-|[<-|[]]]]]; unfold_tasks;
    (destruct v; try (now destruct s)); now contradiction (Hv s0).
Qed.

Lemma non_string_path_ends_the_loop_witness :
  at_ asking = PlannerCall
  /\ step asking (Reply (Parsed (JObj [("step", JStr "action"); ("fType", JStr "read");
                                        ("fInput", JNull)])))
     = Some (State (message asking) home (Crashed (TypeError "ERR_INVALID_ARG_TYPE"))).
Proof.
  split; [reflexivity|].
  apply (non_string_path_ends_the_loop asking _ "read" JNull None eq_refl);
    [repeat split | simpl; tauto | discriminate].
Defined.


(** A clean task passes over the paths that do not exist: when none of
    its paths exists (an empty list included) nothing is removed, nothing
    is printed and nothing is thrown. *)
Theorem clean_skips_missing_paths (w : world) (paths : list string) :
  Forall (fun p => Fs.existsSync (fs w) (Path.resolve (currentDir w) p) = false) paths ->
  executeTask (clean_task paths) w = (Settled (Ok None), w).
Proof.
  intros H. unfold executeTask, clean_task, settle. simpl. unfold cleanUp.
  assert (cleanUp_each (map JStr paths) w = (Ok tt, w)) as ->; [|reflexivity].
  induction H as [|p paths Hp _ IH]; [reflexivity|].
  simpl. unfold bind, path_resolve, existsSync, ret. simpl. rewrite Hp. exact IH.
Qed.

Lemma clean_skips_missing_paths_witness :
  executeTask (clean_task ["dist"; "src/App.css"]) home = (Settled (Ok None), home).
Proof.
  apply clean_skips_missing_paths. repeat constructor.
Defined.

(** A clean task with one path that exists (other than the root) removes
    it with everything below it and leaves currentPath as it is, even
    when currentPath is the removed directory or lies below it, in which
    case it no longer exists afterwards.  Regular files that are not
    below the removed path keep their content. *)
Theorem clean_removes_subtree (w : world) (p : string) (n : node) :
  let target := Path.resolve (currentDir w) p in
  target <> [] ->
  Path.valid target = true ->
  Fs.lookup (fs w) target = Some n ->
  exists w',
    executeTask (clean_task [p]) w = (Settled (Ok None), w')
    /\ currentDir w' = currentDir w
    /\ (forall rest, Fs.existsSync (fs w') (target ++ rest) = false)
    /\ (target `prefix_of` currentDir w -> Fs.existsSync (fs w') (currentDir w') = false)
    /\ (forall q c, ~ target `prefix_of` q ->
          Fs.lookup (fs w) q = Some (File c) -> Fs.lookup (fs w') q = Some (File c)).
Proof.
  intros target Hne Hv Hl.
  destruct (FsFrame.remove_present _ _ _ Hne Hl) as (t' & Hr).
  assert (forall rest, Fs.existsSync t' (target ++ rest) = false) as Hgone.
  { intros rest. unfold Fs.existsSync.
    rewrite (FsFrame.remove_gone _ _ _ rest Hr). apply andb_false_r. }
  assert (Fs.rmSync (fs w) target = Ok t') as Hrm.
  { unfold Fs.rmSync. rewrite Hv. simpl.
    destruct target; [contradiction|]. now rewrite Hr. }
  assert (forall c0, n = File c0 -> Fs.unlinkSync (fs w) target = Ok t') as Hun.
  { intros c0 ->. unfold Fs.unlinkSync. now rewrite Hv, Hl, Hr. }
  unfold executeTask, clean_task, settle. simpl.
  unfold cleanUp, bind, path_resolve, existsSync, lift, update, console_log, ret. simpl.
  fold target. unfold Fs.existsSync, Fs.isDirectory.
  rewrite Hv, Hl. simpl.
  destruct n as [c0|es0]; simpl; rewrite ?Hl, ?Hrm, ?(Hun c0 eq_refl); simpl;
    (eexists; split; [reflexivity|]; simpl; repeat split;
     [ exact Hgone
     | intros [k ->]; apply Hgone
     | intros q c Hq Hc; now apply (FsFrame.remove_frame _ _ _ _ _ Hr) ]).
Qed.

Lemma clean_removes_subtree_witness :
  Fs.lookup (fs home) (Path.resolve (currentDir home) ".") = Some (Dir (<["App.jsx" := File "Hello World"]> ∅))
  /\ exists w',
       executeTask (clean_task ["."]) home = (Settled (Ok None), w')
       /\ currentDir w' = ["home"]
       /\ Fs.existsSync (fs w') (currentDir w') = false.
Proof.
  split; [reflexivity|].
  destruct (clean_removes_subtree home "." (Dir (<["App.jsx" := File "Hello World"]> ∅))
              ltac:(discriminate) eq_refl eq_refl) as (w' & H1 & H2 & _ & H4 & _).
  exists w'. split; [exact H1|]. split; [exact H2|].
  apply H4. now exists [].
Defined.


Ltac split_in H :=
  repeat match type of H with
         | context [match ?x with _ => _ end] =>
             lazymatch x with
             | context [match _ with _ => _ end] => fail
             | _ => destruct x eqn:?; simpl in H
             end
         end.

Ltac split_goal :=
  repeat match goal with
         | |- context [match ?x with _ => _ end] =>
             lazymatch x with
             | context [match _ with _ => _ end] => fail
             | _ => destruct x eqn:?; simpl
             end
         end.

Ltac unfold_in H :=
  unfold executeTask, settle, writeFile, readFile, editFile, changeDirectory,
    fileContains, logStep, cleanUp, runShellCommand, bind, ret, throw, path_resolve,
    file_data, existsSync, lift, update, mkdirSync, set_cwd, console_log, console_warn,
    console_error in H; simpl in H.

Lemma cleanUp_each_cwd (paths : list json) (w : world) (r : result unit) (w' : world) :
  cleanUp_each paths w = (r, w') -> currentDir w' = currentDir w.
Proof.
  revert w. induction paths as [|p paths IH]; intros w H.
  - now injection H as <- <-.
  - simpl in H. unfold bind, path_resolve, existsSync, lift, update, console_log, ret in H.
    simpl in H. split_in H;
      try (apply IH in H; rewrite H; reflexivity);
      now simplify_eq.
Qed.

Lemma parseShellErrors_frame (v : option json) (w : world)
    (r : result (list string)) (w' : world) :
  parseShellErrors v w = (r, w') -> fs w' = fs w /\ currentDir w' = currentDir w.
Proof.
  unfold parseShellErrors, bind, ret, throw, console_log.
  destruct v as [[| | |s| |]|]; try (intros [= <- <-]; now split).
  simpl. destruct (0 <? _)%nat; simpl.
  - destruct (print_each_ok [Txt "•"] (collectErrors (Str.split "010" s) [])
                (print (log, [Txt "🛑 Detected Errors:"]) w)) as (w1 & -> & ? & ?).
    intros [= <- <-]. now split.
  - intros [= <- <-]. now split.
Qed.

Lemma print_suggestions_frame (l : list string) (w : world) :
  exists w', print_suggestions l w = (Ok tt, w')
             /\ fs w' = fs w /\ currentDir w' = currentDir w.
Proof.
  unfold print_suggestions, bind, ret, console_log.
  destruct (0 <? length l)%nat; simpl; [|now exists w].
  destruct (print_each_ok [Txt "•"] l (print (log, [Txt "💡 Suggestions:"]) w))
    as (w1 & -> & ? & ?).
  now exists w1.
Qed.

Lemma suggestImportsOrFixes_frame (v : option json) (w : world)
    (r : result (list string)) (w' : world) :
  suggestImportsOrFixes v w = (r, w') -> fs w' = fs w /\ currentDir w' = currentDir w.
Proof.
  unfold suggestImportsOrFixes, bind, ret, throw.
  destruct v as [[| | |s|items|]|]; try (intros [= <- <-]; now split).
  - match goal with |- context [print_suggestions ?l w] =>
      destruct (print_suggestions_frame l w) as (w1 & -> & ? & ?) end.
    intros [= <- <-]. now split.
  - destruct (arrayIncludes items "Module not found"); [intros [= <- <-]; now split|].
    match goal with |- context [print_suggestions ?l w] =>
      destruct (print_suggestions_frame l w) as (w1 & -> & ? & ?) end.
    intros [= <- <-]. now split.
Qed.

(** Dispatch in [executeTask], read backwards: what a task's type is,
    given the branch that was taken. *)
Ltac dispatch H :=
  unfold executeTask in H;
  repeat match type of H with
         | context [if Js.is_str ?v ?k then _ else _] =>
             let E := fresh "Hkind" in
             destruct (Js.is_str v k) eqn:E; [apply is_str_eq in E|]
         end.

(** Of the ten task kinds only read and contains hand a value back to the
    caller: read a string or null, contains a boolean.  Every other task
    that completes returns nothing, whatever its function computed: the
    nine kinds that settle at once give a value for read and contains
    only, and the one that is suspended is a shell task on a string
    command, which returns nothing once the command has finished - what
    the command printed is dropped. *)
Theorem only_read_and_contains_return (t : Task.t) (w w' : world) :
  (forall v,
      executeTask t w = (Settled (Ok (Some v)), w') ->
      (Task.type t = Some (JStr "read") /\ (v = JNull \/ exists c, v = JStr c))
      \/ (Task.type t = Some (JStr "contains") /\ exists b, v = JBool b))
  /\ (forall command,
        executeTask t w = (Spawned command, w') ->
        Task.type t = Some (JStr "shell")
        /\ Task.input t = Some (JStr command)
        /\ forall r returned w'',
             executeTask_resume command r w' = (Ok returned, w'') -> returned = None).
Proof.
  split.
  - intros v H. dispatch H;
      try (unfold settle, runShellCommand in H; split_in H; discriminate).
    + left. split; [assumption|].
      unfold_in H. split_in H; simplify_eq; eauto.
    + right. split; [assumption|].
      unfold settle in H. split_in H; simplify_eq; eauto.
  - intros command H. dispatch H;
      try (unfold settle in H; split_in H; discriminate).
    split; [assumption|]. split.
    + unfold runShellCommand in H. split_in H; now simplify_eq.
    + intros r returned w'' Hr.
      unfold executeTask_resume, bind, ret in Hr. split_in Hr; now simplify_eq.
Qed.

Lemma only_read_and_contains_return_witness :
  executeTask (task "read" "App.jsx" "") home
  = (Settled (Ok (Some (JStr "Hello World"))),
     snd (executeTask (task "read" "App.jsx" "") home))
  /\ (Task.type (task "read" "App.jsx" "") = Some (JStr "read")
      /\ (JStr "Hello World" = JNull \/ exists c, JStr "Hello World" = JStr c)
      \/ Task.type (task "read" "App.jsx" "") = Some (JStr "contains")
         /\ exists b, JStr "Hello World" = JBool b)
  /\ (forall returned w'',
        executeTask_resume "ls" (ExecResult 0 "App.jsx" "" disk)
          (snd (executeTask (task "shell" "ls" "") home)) = (Ok returned, w'') ->
        returned = None).
Proof.
  split; [reflexivity|]. split.
  - apply (proj1 (only_read_and_contains_return (task "read" "App.jsx" "") home
                    (snd (executeTask (task "read" "App.jsx" "") home)))).
    reflexivity.
  - apply (proj2 (only_read_and_contains_return (task "shell" "ls" "") home
                    (snd (executeTask (task "shell" "ls" "") home))) "ls" eq_refl).
Defined.

(** What a task does to currentPath and to the filesystem, by kind. *)
Lemma executeTask_frame (t : Task.t) (w : world) (out : pending) (w' : world) :
  executeTask t w = (out, w') ->
  (Task.type t <> Some (JStr "cd") -> currentDir w' = currentDir w)
  /\ (~ In (Task.type t)
          [Some (JStr "write"); Some (JStr "edit"); Some (JStr "cd"); Some (JStr "clean")] ->
      fs w' = fs w)
  /\ (currentDir w' = currentDir w
      \/ exists p, currentDir w' = Path.resolve (currentDir w) p).
Proof.
  intros H. dispatch H.
  - (* shell *) unfold runShellCommand in H. split_in H; simplify_eq; repeat split; now left.
  - (* write *)
    assert (currentDir w' = currentDir w) as Hc
      by (unfold_in H; split_in H; now simplify_eq).
    repeat split; [tauto | | now left].
    intros Hn; exfalso; apply Hn; rewrite Hkind0; simpl; tauto.
  - (* read *) unfold_in H. split_in H; simplify_eq; repeat split; now left.
  - (* edit *)
    assert (currentDir w' = currentDir w) as Hc
      by (unfold_in H; split_in H; now simplify_eq).
    repeat split; [tauto | | now left].
    intros Hn; exfalso; apply Hn; rewrite Hkind2; simpl; tauto.
  - (* cd *) repeat split; [congruence | |].
    + intros Hn; exfalso; apply Hn; rewrite Hkind3; simpl; tauto.
    + unfold_in H. split_in H; simplify_eq; simpl; eauto.
  - (* clean *)
    assert (currentDir w' = currentDir w) as Hc.
    { unfold settle, cleanUp, throw in H.
      destruct (Task.input t) as [[| | | |items|]|]; try (now simplify_eq).
      destruct (cleanUp_each items w) as [[a|e] w1] eqn:E;
        apply cleanUp_each_cwd in E; now simplify_eq. }
    repeat split; [tauto | | now left].
    intros Hn; exfalso; apply Hn; rewrite Hkind4; simpl; tauto.
  - (* contains *) unfold_in H. split_in H; simplify_eq; repeat split; now left.
  - (* log *) unfold_in H. simplify_eq. repeat split; now left.
  - (* errors *) unfold settle in H.
    destruct (parseShellErrors (Task.input t) w) as [[a|e] w1] eqn:E;
      apply parseShellErrors_frame in E; simplify_eq; repeat split; try tauto; now left.
  - (* suggestions *) unfold settle in H.
    destruct (suggestImportsOrFixes (Task.input t) w) as [[a|e] w1] eqn:E;
      apply suggestImportsOrFixes_frame in E; simplify_eq; repeat split; try tauto; now left.
  - (* default *) unfold_in H. simplify_eq. repeat split; now left.
Qed.

(** currentPath is moved by cd tasks only, and the filesystem is changed
    by write, edit, cd and clean tasks only (and by the command a shell
    task runs, once it has run): whatever any other task is given and
    however it ends, both are afterwards what they were. *)
Theorem only_cd_moves_currentDir (t : Task.t) (w : world) (out : pending) (w' : world) :
  executeTask t w = (out, w') ->
  (Task.type t <> Some (JStr "cd") -> currentDir w' = currentDir w)
  /\ (~ In (Task.type t)
          [Some (JStr "write"); Some (JStr "edit"); Some (JStr "cd"); Some (JStr "clean")] ->
      fs w' = fs w).
Proof.
  intros H. destruct (executeTask_frame _ _ _ _ H) as (Hcwd & Hfs & _). now split.
Qed.

Lemma only_cd_moves_currentDir_witness :
  Task.type (clean_task ["."]) <> Some (JStr "cd")
  /\ currentDir (snd (executeTask (clean_task ["."]) home)) = currentDir home.
Proof.
  split; [discriminate|].
  refine (proj1 (only_cd_moves_currentDir (clean_task ["."]) home
                   (fst (executeTask (clean_task ["."]) home))
                   (snd (executeTask (clean_task ["."]) home)) _) _);
    [reflexivity | discriminate].
Defined.

(** A task whose type is none of the ten kinds - a misspelt or wrongly
    cased name, or a value that is not a string - is not an error: the
    executor prints a complaint and returns, the filesystem and
    currentPath stay as they are, and the loop appends the reply and asks
    the planner again. *)
Theorem unknown_task_type_is_passed_over
    (s : state) (parsed_result : json) (fType fInput fContent : option json) :
  at_ s = PlannerCall ->
  action_with parsed_result fType fInput fContent ->
  Js.truthy fType = true -> Js.defined fInput = true ->
  known_kind fType = false ->
  step s (Reply (Parsed parsed_result))
  = Some (State (message s ++ [record_reply parsed_result])
            (World (currentDir (env s)) (fs (env s))
               (console (env s) ++ [(error, [Txt "❓ Unknown task type"])]))
            PlannerCall).
Proof.
  intros Hat (Hstep & HT & HI & HC) Htr Hdef Hk.
  unfold step. rewrite Hat, (inner_action _ _ Hstep).
  unfold action. rewrite HT, HI, HC, Htr, Hdef. simpl.
  unfold known_kind in Hk. simpl in Hk.
  repeat (apply orb_false_elim in Hk as [? Hk]).
  unfold executeTask. simpl.
  repeat match goal with H : Js.is_str fType _ = false |- _ => rewrite H; clear H end.
  reflexivity.
Qed.

Lemma unknown_task_type_is_passed_over_witness :
  at_ asking = PlannerCall
  /\ exists s',
       step asking (Reply (Parsed (action_reply "Shell" "npm install" ""))) = Some s'
       /\ at_ s' = PlannerCall /\ length (message s') = 3.
Proof.
  split; [reflexivity|]. eexists. split.
  - apply (unknown_task_type_is_passed_over asking (action_reply "Shell" "npm install" "")
             (Some (JStr "Shell")) (Some (JStr "npm install")) (Some (JStr "")) eq_refl);
      [repeat split | reflexivity | reflexivity | reflexivity].
  - split; reflexivity.
Defined.




(** * More about the control loop *)

(** When the command of a shell action reply exits with status 0, the
    spinner reports success, the trimmed stdout is printed, the
    filesystem is what the command left, and the loop goes on: the reply
    (not the command's output) is appended to the history and the next
    planner reply is requested. *)
Theorem shell_success_continues
    (s : state) (parsed_result : json) (command : string) (r : exec_result) :
  at_ s = PlannerCall ->
  shell_action parsed_result command ->
  exit_code r = 0%Z ->
  run s [Reply (Parsed parsed_result); ExecDone r]
  = Some (State (message s ++ [Msg assistant (Js.stringify parsed_result)])
            (World (currentDir (env s)) (fs_after r)
               (console (env s)
                ++ [(spinner_start, [Txt ("Running: " ++ command)]);
                    (spinner_succeed, [Txt ("Success: " ++ command)]);
                    (log, [Txt (Str.trim (stdout r))])]))
            PlannerCall).
Proof.
  intros Hat (fContent & Hstep & HT & HI & HC) Hexit.
  unfold run, step at 1. rewrite Hat, (inner_action _ _ Hstep).
  unfold action. rewrite HT, HI, HC. simpl.
  unfold step. simpl.
  unfold executeTask_resume, runShellCommand_callback, bind, spinner, console_log, ret. simpl.
  rewrite Hexit. simpl. unfold action_done, push, goto, with_env, record_reply, print. simpl.
  now rewrite <- !List.app_assoc.
Qed.

Lemma shell_success_continues_witness :
  at_ asking = PlannerCall
  /\ exists s',
       run asking [Reply (Parsed (action_reply "shell" "ls" ""));
                   ExecDone (ExecResult 0 ("App.jsx" ++ nl) "" disk)] = Some s'
       /\ at_ s' = PlannerCall /\ length (message s') = 3.
Proof.
  split; [reflexivity|]. eexists. split.
  - apply (shell_success_continues asking (action_reply "shell" "ls" "") "ls"
             (ExecResult 0 ("App.jsx" ++ nl) "" disk) eq_refl);
      [exists (Some (JStr "")); repeat split | reflexivity].
  - split; reflexivity.
Defined.

Lemma step_exited (s : state) (e : event) (s' : state) :
  step s e = Some s' -> at_ s' = Exited ->
  at_ s = AwaitingPrompt /\ e = Line (Ok "exit") /\ message s' = message s
  /\ fs (env s') = fs (env s) /\ currentDir (env s') = currentDir (env s).
Proof.
  unfold step.
  destruct (at_ s) eqn:Hat; destruct e as [answer|[|raw|pr]|r];
    simpl; try discriminate; intros Hs; simplify_eq.
  - unfold outer. destruct answer as [prompt|x]; [|discriminate].
    destruct (String.eqb_spec prompt "exit") as [->|]; [|discriminate].
    intros _. now repeat split.
  - discriminate.
  - discriminate.
  - unfold inner, action. split_goal; discriminate.
  - split_in Hs; simplify_eq; discriminate.
Qed.

(** The script ends normally in one way only: the line [exit] typed at
    the prompt.  No planner reply ends it - a reply with step [exit]
    included - and the line [exit] itself is never sent to the planner:
    the history, the filesystem and currentPath are at the end what they
    were when the prompt was shown. *)
Theorem exit_only_at_the_prompt (s0 : state) (events : list event) (s : state) :
  run s0 events = Some s ->
  at_ s0 <> Exited ->
  at_ s = Exited ->
  exists before s1,
    events = (before ++ [Line (Ok "exit")])%list
    /\ run s0 before = Some s1
    /\ at_ s1 = AwaitingPrompt
    /\ message s = message s1
    /\ fs (env s) = fs (env s1) /\ currentDir (env s) = currentDir (env s1).
Proof.
  revert s0. induction events as [|e events IH]; intros s0 Hrun Hne Hex.
  - simpl in Hrun. congruence.
  - simpl in Hrun. destruct (step s0 e) as [s1|] eqn:Hstep; [|discriminate].
    destruct events as [|e' events].
    + simpl in Hrun. simplify_eq.
      destruct (step_exited _ _ _ Hstep Hex) as (Hat & -> & Hm & Hf & Hc).
      exists [], s0. now repeat split.
    + assert (at_ s1 <> Exited) as Hne1.
      { intros Hx. simpl in Hrun. unfold step in Hrun. rewrite Hx in Hrun. discriminate. }
      destruct (IH s1 Hrun Hne1 Hex) as (before & s2 & Hev & Hb & Hat & Hrest).
      exists (e :: before), s2. repeat split; try tauto.
      * simpl. now rewrite Hev.
      * simpl. now rewrite Hstep.
Qed.

Lemma exit_only_at_the_prompt_witness :
  exists s,
    run start [Line (Ok "hello"); Reply (Parsed (JObj [("step", JStr "exit")]));
               Reply (Parsed (JObj [("step", JStr "output")])); Line (Ok "exit")] = Some s
    /\ at_ s = Exited
    /\ length (message s) = 2.
Proof.
  eexists. split; [reflexivity|]. split; [reflexivity|].
  destruct (exit_only_at_the_prompt start
              [Line (Ok "hello"); Reply (Parsed (JObj [("step", JStr "exit")]));
               Reply (Parsed (JObj [("step", JStr "output")])); Line (Ok "exit")]
              _ eq_refl ltac:(discriminate) eq_refl)
    as (before & s1 & _ & _ & _ & Hm & _).
  reflexivity.
Defined.

Lemma came_from_more (seen more : list event) (m : Message) :
  came_from seen m -> came_from (seen ++ more) m.
Proof.
  intros [(prompt & -> & Hne & Hin)|(pr & -> & Hin)]; [left|right]; eexists;
    repeat split; try assumption; apply in_or_app; now left.
Qed.

Lemma owed_seen_more (c : control) (seen more : list event) :
  owed_seen c seen -> owed_seen c (seen ++ more).
Proof. destruct c; simpl; try tauto. intros H. apply in_or_app. now left. Qed.

Ltac nothing_added :=
  split; [try exact I|]; [exists []; split; [simpl; now rewrite List.app_nil_r | constructor]].

Lemma step_provenance (seen : list event) (s : state) (e : event) (s' : state) :
  step s e = Some s' ->
  owed_seen (at_ s) seen ->
  owed_seen (at_ s') (seen ++ [e])
  /\ exists suffix,
       message s' = (message s ++ suffix)%list
       /\ Forall (came_from (seen ++ [e])) suffix.
Proof.
  assert (forall x : event, In x (seen ++ [x])) as Hlast
    by (intros x; apply in_or_app; right; now left).
  unfold step.
  destruct (at_ s) eqn:Hat; destruct e as [answer|[|raw|pr]|r];
    simpl; try discriminate; intros Hs Howed; simplify_eq.
  - unfold outer. destruct answer as [prompt|x]; simpl.
    + destruct (String.eqb_spec prompt "exit") as [->|Hne]; simpl.
      * nothing_added.
      * split; [exact I|]. exists [Msg user prompt]. split; [reflexivity|].
        constructor; [|constructor]. left. exists prompt. now repeat split.
    + nothing_added.
  - nothing_added.
  - nothing_added.
  - assert (came_from (seen ++ [Reply (Parsed pr)]) (record_reply pr)) as Hrec.
    { right. exists pr. split; [reflexivity | apply Hlast]. }
    unfold inner.
    destruct (Js.prop pr "step") as [st|] eqn:Hst;
      [|nothing_added].
    destruct (Js.is_str st "analyze") eqn:Ha.
    { apply is_str_eq in Ha. subst st. simpl.
      split; [simpl; rewrite ?Hat; exact I|]. exists [record_reply pr].
      split; [reflexivity | constructor; [exact Hrec | constructor]]. }
    destruct (Js.is_str st "convert") eqn:Hc.
    { apply is_str_eq in Hc. subst st. simpl.
      split; [simpl; rewrite ?Hat; exact I|]. exists [record_reply pr].
      split; [reflexivity | constructor; [exact Hrec | constructor]]. }
    destruct (Js.is_str st "output");
      [nothing_added|].
    destruct (Js.is_str st "action");
      [|nothing_added].
    unfold action.
    destruct (Js.prop pr "fType") as [fType|];
      [|nothing_added].
    destruct (Js.prop pr "fInput") as [fInput|];
      [|nothing_added].
    destruct (Js.prop pr "fContent") as [fContent|];
      [|nothing_added].
    destruct (Js.truthy fType && Js.defined fInput).
    + destruct (executeTask _ _) as [[[v|x]|cmd] w]; simpl.
      * split; [exact I|]. exists [record_reply pr].
        split; [reflexivity | constructor; [exact Hrec | constructor]].
      * nothing_added.
      * split; [apply Hlast|]. exists []. split; [now rewrite List.app_nil_r | constructor].
    + split; [exact I|]. exists [record_reply pr].
      split; [reflexivity | constructor; [exact Hrec | constructor]].
  - simpl in Howed.
    destruct (executeTask_resume command r (env s)) as [[v|x] w]; simplify_eq; simpl.
    + split; [exact I|]. exists [record_reply parsed_result]. split; [reflexivity|].
      constructor; [|constructor]. right. exists parsed_result.
      split; [reflexivity | apply in_or_app; now left].
    + nothing_added.
Qed.

Lemma run_provenance (events seen : list event) (s s' : state) :
  run s events = Some s' ->
  owed_seen (at_ s) seen ->
  exists suffix,
    message s' = (message s ++ suffix)%list
    /\ Forall (came_from (seen ++ events)) suffix.
Proof.
  revert seen s. induction events as [|e events IH]; intros seen s Hrun Howed.
  - simpl in Hrun. simplify_eq. exists []. split; [now rewrite List.app_nil_r | constructor].
  - simpl in Hrun. destruct (step s e) as [s1|] eqn:Hstep; [|discriminate].
    destruct (step_provenance seen _ _ _ Hstep Howed) as (Howed1 & l1 & Hm1 & F1).
    destruct (IH (seen ++ [e])%list s1 Hrun Howed1) as (l2 & Hm2 & F2).
    replace (seen ++ e :: events)%list with ((seen ++ [e]) ++ events)%list
      by (now rewrite <- List.app_assoc).
    exists (l1 ++ l2)%list. split.
    + rewrite Hm2, Hm1. now rewrite <- List.app_assoc.
    + apply Forall_app. split; [|assumption].
      eapply List.Forall_impl; [|exact F1]. intros m. apply came_from_more.
Qed.

(** Nothing but the conversation enters the history: at every point of a
    run, each message after the system message is either a line typed at
    the prompt (never the line [exit]), as a user message, or one of the
    planner's parsed replies serialised again, as an assistant message.
    What a task returned, printed or threw is never part of it. *)
Theorem history_holds_only_prompts_and_replies
    (system_prompt : string) (cwd : list string) (d : node)
    (events : list event) (s : state) :
  run (initial system_prompt cwd d) events = Some s ->
  exists rest,
    message s = Msg system system_prompt :: rest
    /\ Forall (came_from events) rest.
Proof.
  intros Hrun.
  destruct (run_provenance events [] _ _ Hrun I) as (rest & Hm & F).
  now exists rest.
Qed.

Lemma history_holds_only_prompts_and_replies_witness :
  exists s rest,
    run start (Line (Ok "hello") :: second_cycle) = Some s
    /\ message s = Msg system "You are an Expert Developer." :: rest
    /\ Forall (came_from (Line (Ok "hello") :: second_cycle)) rest.
Proof.
  destruct (history_holds_only_prompts_and_replies "You are an Expert Developer."
              ["home"] disk (Line (Ok "hello") :: second_cycle)
              (default start (run start (Line (Ok "hello") :: second_cycle))) eq_refl)
    as (rest & Hm & F).
  eexists _, rest. split; [reflexivity|]. split; assumption.
Defined.



Module PathFacts.
Import Path.

Lemma plain_removelast (p : list string) : plain p -> plain (removelast p).
Proof.
  unfold plain. induction p as [|c p IH]; [constructor|].
  intros H. inversion H as [|? ? Hc Hp]; subst.
  destruct p as [|c' p]; [constructor|].
  change (removelast (c :: c' :: p)) with (c :: removelast (c' :: p)).
  constructor; [assumption | now apply IH].
Qed.

Lemma pushSegment_plain (acc : list string) (seg : string) :
  plain acc -> plain (pushSegment acc seg).
Proof.
  intros H. unfold pushSegment.
  destruct (String.eqb_spec seg ""); simpl; [assumption|].
  destruct (String.eqb_spec seg "."); simpl; [assumption|].
  destruct (String.eqb_spec seg ".."); [now apply plain_removelast|].
  apply Forall_app. split; [assumption|]. now repeat constructor.
Qed.

Lemma fold_plain (segs acc : list string) :
  plain acc -> plain (fold_left pushSegment segs acc).
Proof.
  revert acc. induction segs as [|seg segs IH]; intros acc H; simpl; [assumption|].
  apply IH. now apply pushSegment_plain.
Qed.

(** What [path.resolve] returns is always normalised. *)
Lemma resolve_plain (cur : list string) (p : string) : plain (resolve cur p).
Proof. apply fold_plain. constructor. Qed.

Lemma fold_plain_id (segs acc : list string) :
  plain segs -> fold_left pushSegment segs acc = (acc ++ segs)%list.
Proof.
  revert acc. induction segs as [|seg segs IH]; intros acc H; simpl.
  - now rewrite List.app_nil_r.
  - inversion H as [|? ? (H1 & H2 & H3) Hp]; subst. rewrite IH by assumption.
    unfold pushSegment.
    apply String.eqb_neq in H1, H2, H3. rewrite H1, H2, H3. simpl.
    now rewrite <- List.app_assoc.
Qed.

(** Against a normalised directory, the empty path and [.] resolve to the
    directory itself. *)
Lemma resolve_here (cur : list string) :
  plain cur -> resolve cur "" = cur /\ resolve cur "." = cur.
Proof.
  intros H. unfold resolve, normalize. simpl.
  rewrite !fold_left_app, !(fold_plain_id cur []) by assumption. simpl. now split.
Qed.

End PathFacts.

Lemma action_cwd (pr : json) (s : state) :
  currentDir (env (action pr s)) = currentDir (env s)
  \/ exists p, currentDir (env (action pr s)) = Path.resolve (currentDir (env s)) p.
Proof.
  unfold action.
  destruct (Js.prop pr "fType") as [fType|]; [|now left].
  destruct (Js.prop pr "fInput") as [fInput|]; [|now left].
  destruct (Js.prop pr "fContent") as [fContent|]; [|now left].
  destruct (Js.truthy fType && Js.defined fInput); [|now left].
  destruct (executeTask _ (env s)) as [out w] eqn:E.
  apply executeTask_frame in E as (_ & _ & Hc).
  destruct out as [[v|x]|cmd]; exact Hc.
Qed.

(** One event moves currentPath, if at all, to a path [path.resolve]
    returned. *)
Lemma step_cwd (s : state) (e : event) (s' : state) :
  step s e = Some s' ->
  currentDir (env s') = currentDir (env s)
  \/ exists p, currentDir (env s') = Path.resolve (currentDir (env s)) p.
Proof.
  unfold step.
  destruct (at_ s) eqn:Hat; destruct e as [answer|[|raw|pr]|r];
    simpl; try discriminate; intros Hs; simplify_eq.
  - unfold outer. split_goal; now left.
  - now left.
  - now left.
  - unfold inner.
    destruct (Js.prop pr "step") as [st|]; [|now left].
    destruct (Js.is_str st "analyze"), (Js.is_str st "convert"),
      (Js.is_str st "output"), (Js.is_str st "action");
      try (now left); exact (action_cwd pr _).
  - unfold executeTask_resume, runShellCommand_callback, bind, spinner, console_log, console_error, ret, throw in Hs.
    simpl in Hs. split_in Hs; simplify_eq; now left.
Qed.

(** currentPath stays a normalised absolute path: if the directory the
    script is launched in has no empty, [.] or [..] component, neither has
    currentPath at any later point of a run, whatever paths the cd tasks
    were given; and so the empty path and [.] always resolve to
    currentPath itself. *)
Theorem currentDir_stays_normalised
    (system_prompt : string) (cwd : list string) (d : node)
    (events : list event) (s : state) :
  plain cwd ->
  run (initial system_prompt cwd d) events = Some s ->
  plain (currentDir (env s))
  /\ Path.resolve (currentDir (env s)) "" = currentDir (env s)
  /\ Path.resolve (currentDir (env s)) "." = currentDir (env s).
Proof.
  intros Hp Hrun.
  assert (plain (currentDir (env s))) as H.
  { change cwd with (currentDir (env (initial system_prompt cwd d))) in Hp.
    revert Hp Hrun. generalize (initial system_prompt cwd d).
    induction events as [|e events IH]; intros s0 Hp Hrun; simpl in Hrun.
    - now simplify_eq.
    - destruct (step s0 e) as [s1|] eqn:Hstep; [|discriminate].
      apply (IH s1); [|assumption].
      destruct (step_cwd _ _ _ Hstep) as [->|(p & ->)];
        [assumption | apply PathFacts.resolve_plain]. }
  split; [assumption | now apply PathFacts.resolve_here].
Qed.

Lemma currentDir_stays_normalised_witness :
  plain ["home"]
  /\ exists s,
       run start [Line (Ok "go"); Reply (Parsed (action_reply "cd" "./src/../lib//x/." ""))]
       = Some s
       /\ currentDir (env s) = ["home"; "lib"; "x"]
       /\ plain (currentDir (env s)).
Proof.
  assert (plain ["home"]) as Hp by (repeat constructor; discriminate).
  split; [exact Hp|]. eexists. split; [reflexivity|]. split; [reflexivity|].
  apply (currentDir_stays_normalised "You are an Expert Developer." ["home"] disk
           [Line (Ok "go"); Reply (Parsed (action_reply "cd" "./src/../lib//x/." ""))]
           _ Hp eq_refl).
Defined.

Module MatchFacts.
Import Str StrFacts.

Lemma startsWith_app (n rest : string) : startsWith n (n ++ rest) = true.
Proof.
  induction n as [|c n IH]; [reflexivity|].
  rewrite app_cons. simpl. now rewrite Ascii.eqb_refl.
Qed.

Lemma includes_app (pre n post : string) : includes n (pre ++ n ++ post) = true.
Proof.
  induction pre as [|c pre IH].
  - change ("" ++ n ++ post) with (n ++ post).
    destruct (n ++ post) eqn:E; simpl; rewrite <- E, startsWith_app; reflexivity.
  - rewrite app_cons. simpl. rewrite IH. apply orb_true_r.
Qed.


(** The lazy capture stops at the first quote and never runs over one. *)
Lemma lazyUntilQuote_sound (r m : string) :
  lazyUntilQuote r = Some m ->
  (exists post, r = m ++ "'" ++ post) /\ includes "'" m = false.
Proof.
  revert m. induction r as [|c r IH]; intros m; simpl; [discriminate|].
  destruct (Ascii.eqb_spec c "'") as [->|Hc].
  - intros [= <-]. split; [now exists r | reflexivity].
  - destruct (_ || _); [discriminate|].
    destruct (lazyUntilQuote r) as [m'|]; [|discriminate].
    intros [= <-]. destruct (IH m' eq_refl) as ((post & ->) & Hq).
    split; [now exists post|].
    simpl. apply Ascii.eqb_neq in Hc. rewrite Ascii.eqb_sym in Hc.
    simpl in Hc. rewrite Hc. simpl. exact Hq.
Qed.

Lemma matchCantResolve_unfold (s : string) :
  matchCantResolve s
  = match match stripPrefix "Can't resolve '" s with
          | Some r => lazyUntilQuote r
          | None => None
          end with
    | Some m => Some m
    | None => match s with
              | EmptyString => None
              | String _ s' => matchCantResolve s'
              end
    end.
Proof. destruct s; reflexivity. Qed.

(** What the pattern captures stands in the text, between the literal
    front and a closing quote. *)
Lemma matchCantResolve_sound (s m : string) :
  matchCantResolve s = Some m ->
  includes ("Can't resolve '" ++ m ++ "'") s = true /\ includes "'" m = false.
Proof.
  induction s as [|c s IH]; rewrite matchCantResolve_unfold.
  - simpl. discriminate.
  - destruct (stripPrefix "Can't resolve '" (String c s)) as [r|] eqn:E.
    + destruct (lazyUntilQuote r) as [m'|] eqn:L.
      * intros [= <-]. apply stripPrefix_Some in E.
        destruct (lazyUntilQuote_sound _ _ L) as ((post & ->) & Hq).
        split; [|exact Hq]. rewrite E.
        rewrite <- (app_assoc "Can't resolve '" m' ("'" ++ post)).
        rewrite <- (app_assoc ("Can't resolve '" ++ m') "'" post).
        rewrite (app_assoc "Can't resolve '" m' "'").
        apply (includes_app "").
      * intros H. destruct (IH H) as (Hi & Hq). split; [|exact Hq].
        simpl. rewrite Hi. apply orb_true_r.
    + intros H. destruct (IH H) as (Hi & Hq). split; [|exact Hq].
      simpl. rewrite Hi. apply orb_true_r.
Qed.

End MatchFacts.

(** The suggestions task on a text never throws and touches nothing but
    the console.  It gives at most two suggestions; without either
    signature in the text it gives none and prints nothing; the React hint
    is given only when the text holds [React is not defined]; and a
    missing-dependency suggestion names a module only when the text holds
    [Module not found] and that name, free of quotes, stands in the text
    between [Can't resolve '] and a closing quote. *)
Theorem suggestions_are_grounded (stderr : string) (w : world) :
  exists suggestions w',
    suggestImportsOrFixes (Some (JStr stderr)) w = (Ok suggestions, w')
    /\ fs w' = fs w /\ currentDir w' = currentDir w
    /\ length suggestions <= 2
    /\ (Str.includes "React is not defined" stderr = false ->
        Str.includes "Module not found" stderr = false ->
        suggestions = [] /\ w' = w)
    /\ Forall (fun x =>
                 x = reactHint /\ Str.includes "React is not defined" stderr = true
                 \/ exists m,
                     x = missingDependency m
                     /\ Str.includes "Module not found" stderr = true
                     /\ Str.includes ("Can't resolve '" ++ m ++ "'") stderr = true
                     /\ Str.includes "'" m = false)
         suggestions.
Proof.
  unfold suggestImportsOrFixes, bind, ret.
  match goal with |- context [print_suggestions ?l w] => set (l0 := l) end.
  destruct (print_suggestions_frame l0 w) as (w1 & Hp & Hf & Hc).
  exists l0, w1. rewrite Hp. split; [reflexivity|]. split; [assumption|]. split; [assumption|].
  subst l0.
  destruct (Str.includes "React is not defined" stderr) eqn:HR;
    destruct (Str.includes "Module not found" stderr) eqn:HM.
  - destruct (matchCantResolve stderr) as [m|] eqn:Hm.
    + apply MatchFacts.matchCantResolve_sound in Hm as (Hi & Hq).
      split; [cbn [length app]; lia|]. split; [discriminate|].
      constructor; [now left|]. constructor; [|constructor].
      right. exists m. now repeat split.
    + split; [cbn [length]; lia|]. split; [discriminate|].
      constructor; [now left | constructor].
  - split; [cbn [length]; lia|]. split; [discriminate|].
    constructor; [now left | constructor].
  - destruct (matchCantResolve stderr) as [m|] eqn:Hm.
    + apply MatchFacts.matchCantResolve_sound in Hm as (Hi & Hq).
      split; [cbn [length app]; lia|]. split; [discriminate|].
      constructor; [|constructor].
      right. exists m. now repeat split.
    + split; [cbn [length]; lia|]. split; [discriminate|]. constructor.
  - split; [cbn [length]; lia|]. split; [|constructor].
    intros _ _. split; [reflexivity|].
    unfold print_suggestions in Hp. cbn [length Nat.ltb Nat.leb] in Hp.
    unfold ret in Hp. now injection Hp as <-.
Qed.



(** A write reply whose [fContent] is missing or falsy (null, false, 0 or
    the empty string) still writes: the file is created or overwritten
    with empty content, the reply is appended and the loop goes on. *)
Theorem write_without_content_empties_the_file
    (s : state) (parsed_result : json) (p : string) (fContent : option json) :
  at_ s = PlannerCall ->
  action_with parsed_result (Some (JStr "write")) (Some (JStr p)) fContent ->
  Js.truthy fContent = false ->
  writable (env s) p ->
  exists s',
    step s (Reply (Parsed parsed_result)) = Some s'
    /\ at_ s' = PlannerCall
    /\ message s' = (message s ++ [record_reply parsed_result])%list
    /\ currentDir (env s') = currentDir (env s)
    /\ Fs.lookup (fs (env s')) (Path.resolve (currentDir (env s)) p) = Some (File "").
Proof.
  intros Hat (Hstep & HT & HI & HC) Hfalsy (Hv & Hf & Hd).
  unfold step. rewrite Hat, (inner_action _ _ Hstep).
  unfold action. rewrite HT, HI, HC. unfold Js.or_else. rewrite Hfalsy. simpl.
  unfold_tasks. set (fullPath := Path.resolve (currentDir (env s)) p) in *.
  unfold Fs.writeFileSync.
  rewrite (FsFacts.mkdirSync_valid _ _ (ValidFacts.valid_dirname _ Hv)), Hv. simpl.
  pose proof (proj1 (ValidFacts.valid_parts _) (ValidFacts.valid_dirname _ Hv))
    as (_ & _ & Hn).
  destruct (FsFacts.mkdirp_then_write fullPath (fs (env s)) "" Hf Hn) as (t1 & t2 & Hm & Hw).
  { intros es Hl. apply Hd. unfold Fs.isDirectory. now rewrite Hv, Hl. }
  unfold Path.dirname. rewrite Hm. simpl. rewrite Hw. simpl.
  eexists. split; [reflexivity|]. simpl. repeat split.
  now apply FsFacts.write_lookup with t1.
Qed.

Lemma write_without_content_empties_the_file_witness :
  at_ asking = PlannerCall
  /\ writable (env asking) "App.jsx"
  /\ exists s',
       step asking (Reply (Parsed (JObj [("step", JStr "action"); ("fType", JStr "write");
                                          ("fInput", JStr "App.jsx")]))) = Some s'
       /\ Fs.lookup (fs (env s')) ["home"; "App.jsx"] = Some (File "").
Proof.
  assert (writable (env asking) "App.jsx") as Hw
    by (repeat split; vm_compute; discriminate).
  split; [reflexivity|]. split; [exact Hw|].
  destruct (write_without_content_empties_the_file asking
              (JObj [("step", JStr "action"); ("fType", JStr "write");
                     ("fInput", JStr "App.jsx")])
              "App.jsx" None eq_refl ltac:(repeat split) eq_refl Hw)
    as (s' & Hs & _ & _ & _ & Hl).
  exists s'. split; [exact Hs | exact Hl].
Defined.


Lemma bind_assoc {A B C} (m : M A) (k : A -> M B) (h : B -> M C) (w : world) :
  bind (bind m k) h w = bind m (fun a => bind (k a) h) w.
Proof. unfold bind. destruct (m w) as [[a|e] w1]; reflexivity. Qed.

Lemma bind_ext {A B} (m : M A) (k k' : A -> M B) (w : world) :
  (forall a w1, k a w1 = k' a w1) -> bind m k w = bind m k' w.
Proof. intros H. unfold bind. destruct (m w) as [[a|e] w1]; [apply H | reflexivity]. Qed.

Lemma cleanUp_each_app (l1 l2 : list json) (w : world) :
  cleanUp_each (l1 ++ l2) w = bind (cleanUp_each l1) (fun _ => cleanUp_each l2) w.
Proof.
  revert w. induction l1 as [|p l1 IH]; intros w; [reflexivity|].
  rewrite <- List.app_comm_cons. cbn [cleanUp_each].
  rewrite bind_assoc. apply bind_ext. intros fullPath w1.
  rewrite bind_assoc. apply bind_ext. intros found w2.
  rewrite bind_assoc. apply bind_ext. intros _ w3. apply IH.
Qed.

(** A clean task works through its paths in order and is not atomic: on
    a list in two parts it does what a clean task on the first part
    followed by one on the second does, and when a path makes it throw
    (an entry that is not a string, say) the paths before it have already
    been removed and those after it are left. *)
Theorem clean_goes_in_order (l1 l2 : list json) (w : world) :
  executeTask (clean_items (l1 ++ l2)) w
  = match executeTask (clean_items l1) w with
    | (Settled (Ok _), w1) => executeTask (clean_items l2) w1
    | other => other
    end
  /\ (forall v w1,
        (forall p, v <> JStr p) ->
        executeTask (clean_items l1) w = (Settled (Ok None), w1) ->
        executeTask (clean_items (l1 ++ v :: l2)) w
        = (Settled (Throw (TypeError "ERR_INVALID_ARG_TYPE")), w1)).
Proof.
  assert (forall l, executeTask (clean_items l) w
                    = match cleanUp_each l w with
                      | (Ok _, w') => (Settled (Ok None), w')
                      | (Throw e, w') => (Settled (Throw e), w')
                      end) as Hex by reflexivity.
  split.
  - rewrite !Hex, cleanUp_each_app. unfold bind.
    destruct (cleanUp_each l1 w) as [[u|e] w1]; [|reflexivity].
    unfold executeTask, clean_items, settle. reflexivity.
  - intros v w1 Hv H1. rewrite Hex in H1. rewrite Hex, cleanUp_each_app. unfold bind at 1.
    destruct (cleanUp_each l1 w) as [[u|e] w0]; [|discriminate].
    injection H1 as <-. cbn [cleanUp_each]. unfold bind, path_resolve.
    destruct v; try reflexivity. now contradiction (Hv s).
Qed.

(** An action reply whose [fType] is there but falsy - the empty string,
    0, false or null - is treated like one without [fType]: a warning, no
    task, the reply appended and the next planner reply requested. *)
Theorem falsy_task_type_counts_as_missing
    (s : state) (parsed_result : json) (fType fInput fContent : option json) :
  at_ s = PlannerCall ->
  action_with parsed_result fType fInput fContent ->
  In fType [Some (JStr ""); Some (JNum "0"); Some (JBool false); Some JNull] ->
  step s (Reply (Parsed parsed_result))
  = Some (State (message s ++ [record_reply parsed_result])
            (World (currentDir (env s)) (fs (env s))
               (console (env s) ++ [(warn, [Txt "Missing fType or fInput in action step!"])]))
            PlannerCall).
Proof.
  intros Hat (Hstep & HT & HI & HC) Hf.
  unfold step. rewrite Hat, (inner_action _ _ Hstep).
  unfold action. rewrite HT, HI, HC.
  assert (Js.truthy fType = false) as ->; [|reflexivity].
  simpl in Hf. destruct Hf as [<-|[<-|[<-|[<-|[]]]]]; reflexivity.
Qed.

Lemma falsy_task_type_counts_as_missing_witness :
  at_ asking = PlannerCall
  /\ exists s',
       step asking (Reply (Parsed (action_reply "" "npm install" ""))) = Some s'
       /\ fs (env s') = disk /\ at_ s' = PlannerCall.
Proof.
  split; [reflexivity|]. eexists. split.
  - apply (falsy_task_type_counts_as_missing asking (action_reply "" "npm install" "")
             (Some (JStr "")) (Some (JStr "npm install")) (Some (JStr "")) eq_refl);
      [repeat split | now left].
  - split; reflexivity.
Defined.

Module FsMore.
Import Fs.

Lemma mkdirp_lands (t : node) (p : list string) (t' : node) :
  mkdirp t p = (t', None) -> exists es, lookup t' p = Some (Dir es).
Proof.
  revert t t'. induction p as [|c p IH]; intros [d|es] t'; simpl; try discriminate.
  - intros [= <-]. eauto.
  - destruct (Path.nameTooLong c); [discriminate|].
    destruct (mkdirp (default (Dir ∅) (es !! c)) p) as [t1 stop] eqn:M.
    intros [= <- ->]. simpl. rewrite lookup_insert_eq.
    now apply IH with (default (Dir ∅) (es !! c)).
Qed.

(** [fs.mkdirSync] that does not throw was given an accepted path, and
    leaves a directory there. *)
Lemma mkdirSync_lands (t : node) (p : list string) (t' : node) :
  mkdirSync t p = (t', None) ->
  Path.valid p = true /\ exists es, lookup t' p = Some (Dir es).
Proof.
  intros H. destruct (Path.valid p) eqn:Hv.
  - split; [reflexivity|]. rewrite (FsFacts.mkdirSync_valid _ _ Hv) in H.
    now apply mkdirp_lands with t.
  - destruct (FsFacts.mkdirSync_refused t _ Hv) as (t1 & e & He). congruence.
Qed.

(** Above anything that exists there are directories only. *)
Lemma lookup_parent (t : node) (p : list string) (c : string) (n : node) :
  lookup t (p ++ [c]) = Some n -> exists es, lookup t p = Some (Dir es).
Proof.
  revert t. induction p as [|x p IH]; intros [d|es]; simpl; try discriminate.
  - eauto.
  - destruct (es !! x) as [t0|]; [apply IH | discriminate].
Qed.

Lemma valid_parent (p : list string) (c : string) :
  Path.valid (p ++ [c]) = true -> Path.valid p = true.
Proof. apply ValidFacts.valid_prefix. Qed.

End FsMore.

Lemma resolve_child (cur : list string) (c : string) :
  plain cur -> Str.split "/" c = [c] -> plain [c] ->
  Path.resolve cur c = (cur ++ [c])%list
  /\ Path.resolve (cur ++ [c]) ".." = cur.
Proof.
  intros Hcur Hsplit Hc.
  assert (Path.isAbsolute c = false) as Habs.
  { unfold Path.isAbsolute. destruct c as [|a c]; [reflexivity|].
    cbn [Str.startsWith]. destruct (Ascii.eqb "/" a) eqn:E; [|reflexivity].
    apply Ascii.eqb_eq in E. subst a. simpl in Hsplit. discriminate. }
  assert (plain (cur ++ [c])) as Hboth by (apply Forall_app; now split).
  unfold Path.resolve, Path.normalize. rewrite Habs, Hsplit. simpl.
  split.
  - now rewrite (PathFacts.fold_plain_id (cur ++ [c]) []).
  - rewrite fold_left_app, (PathFacts.fold_plain_id (cur ++ [c]) []) by assumption.
    simpl. unfold Path.pushSegment. simpl. apply removelast_last.
Qed.

(** cd into a child directory and then cd [..] comes back: after a cd
    task on a single plain name has completed, a cd task on [..] succeeds,
    puts currentPath back where it was, and leaves the filesystem as the
    first cd left it. *)
Theorem cd_child_then_parent (w : world) (c : string) (w1 : world) :
  plain (currentDir w) ->
  Str.split "/" c = [c] ->
  plain [c] ->
  executeTask (task "cd" c "") w = (Settled (Ok None), w1) ->
  exists w2,
    executeTask (task "cd" ".." "") w1 = (Settled (Ok None), w2)
    /\ currentDir w2 = currentDir w
    /\ fs w2 = fs w1.
Proof.
  intros Hcur Hsplit Hc H.
  destruct (resolve_child _ _ Hcur Hsplit Hc) as (Hr1 & Hr2).
  assert (currentDir w1 = (currentDir w ++ [c])%list
          /\ Path.valid (currentDir w ++ [c]) = true
          /\ exists es, Fs.lookup (fs w1) (currentDir w ++ [c]) = Some (Dir es))
    as (Hc1 & Hv & es & Hl).
  { unfold_in H. rewrite Hr1 in H.
    unfold Fs.existsSync, Fs.isDirectory in H.
    destruct (Path.valid (currentDir w ++ [c])) eqn:Hv; simpl in H.
    - destruct (Fs.lookup (fs w) (currentDir w ++ [c])) as [[d|es0]|] eqn:Hl;
        simpl in H; rewrite ?Hl in H; simpl in H.
      + destruct (Fs.mkdirSync (fs w) (currentDir w ++ [c])) as [t1 [e|]] eqn:Hm;
          simpl in H; [discriminate|].
        simplify_eq. simpl. repeat split. now apply (FsMore.mkdirSync_lands _ _ _ Hm).
      + simplify_eq. simpl. repeat split. eauto.
      + destruct (Fs.mkdirSync (fs w) (currentDir w ++ [c])) as [t1 [e|]] eqn:Hm;
          simpl in H; [discriminate|].
        simplify_eq. simpl. repeat split. now apply (FsMore.mkdirSync_lands _ _ _ Hm).
    - destruct (FsFacts.mkdirSync_refused (fs w) _ Hv) as (t1 & e & He).
      rewrite He in H. discriminate. }
  destruct (FsMore.lookup_parent _ _ _ _ Hl) as (es' & Hl').
  pose proof (FsMore.valid_parent _ _ Hv) as Hv'.
  unfold_tasks. rewrite Hc1, Hr2.
  unfold Fs.existsSync, Fs.isDirectory. rewrite Hv', Hl'. simpl. rewrite Hl'.
  eexists. split; [reflexivity|]. now split.
Qed.

Lemma cd_child_then_parent_witness :
  plain (currentDir home)
  /\ exists w1 w2,
       executeTask (task "cd" "components" "") home = (Settled (Ok None), w1)
       /\ executeTask (task "cd" ".." "") w1 = (Settled (Ok None), w2)
       /\ currentDir w2 = ["home"].
Proof.
  assert (plain (currentDir home)) as Hp by (repeat constructor; discriminate).
  assert (plain ["components"]) as Hc by (repeat constructor; discriminate).
  split; [exact Hp|].
  destruct (cd_child_then_parent home "components" _ Hp eq_refl Hc eq_refl)
    as (w2 & H2 & Hcwd & _).
  eexists _, w2. split; [reflexivity|]. split; [exact H2 | exact Hcwd].
Defined.

Module TrimFacts.
Import Str StrFacts MatchFacts.

Lemma startsWith_spec (n s : string) :
  startsWith n s = true <-> exists rest, s = n ++ rest.
Proof.
  split.
  - revert s. induction n as [|a n IH]; intros s; simpl; [now exists s|].
    destruct s as [|c s]; [discriminate|].
    destruct (Ascii.eqb_spec a c) as [->|]; [|discriminate].
    intros H. destruct (IH _ H) as (rest & ->). now exists rest.
  - intros (rest & ->). apply startsWith_app.
Qed.

Lemma includes_spec (n s : string) :
  includes n s = true <-> exists pre post, s = pre ++ n ++ post.
Proof.
  split.
  - induction s as [|c s IH]; simpl.
    + rewrite orb_false_r. intros (rest & ->)%startsWith_spec. now exists "", rest.
    + intros [H|H]%orb_true_iff.
      * apply startsWith_spec in H as (rest & ->). now exists "", rest.
      * destruct (IH H) as (pre & post & ->). now exists (String c pre), post.
  - intros (pre & post & ->). apply includes_app.
Qed.

Lemma includes_rev (n s : string) : includes (rev n) (rev s) = includes n s.
Proof.
  apply eq_true_iff_eq. rewrite !includes_spec. split.
  - intros (pre & post & H). exists (rev post), (rev pre).
    rewrite <- (rev_involutive s), H, !rev_app, rev_involutive. apply app_assoc.
  - intros (pre & post & ->). exists (rev post), (rev pre).
    rewrite !rev_app. apply app_assoc.
Qed.

(** A stretch of text without the needle's first character cannot hold
    the start of an occurrence. *)
Lemma includes_skip (n0 : ascii) (n' w r : string) :
  includes (String n0 "") w = false ->
  includes (String n0 n') (w ++ r) = includes (String n0 n') r.
Proof.
  induction w as [|a w IH]; [reflexivity|].
  rewrite app_cons. cbn [includes startsWith].
  destruct (Ascii.eqb n0 a); [discriminate|]. simpl. exact IH.
Qed.

Lemma toLowerCase_app (a b : string) :
  toLowerCase (a ++ b) = toLowerCase a ++ toLowerCase b.
Proof.
  induction a as [|c a IH]; [reflexivity|].
  rewrite app_cons. simpl. now rewrite IH.
Qed.

Lemma toLowerCase_rev (s : string) : toLowerCase (rev s) = rev (toLowerCase s).
Proof.
  induction s as [|c s IH]; [reflexivity|].
  simpl. now rewrite toLowerCase_app, IH.
Qed.

Section Needle.
(** [f] is the identity or [toLowerCase]; the needle starts with [n0],
    a character none of the strings in [ws] holds, also after [f]. *)
Variable f : string -> string.
Hypothesis f_app : forall a b, f (a ++ b) = f a ++ f b.
Variable n0 : ascii.
Variable n' : string.
Variable ws : list string.
Hypothesis clear_of_n0 :
  forallb (fun w => negb (includes (String n0 "") (f w))) ws = true.

Lemma dropWhile_includes (k : nat) (s : string) :
  includes (String n0 n') (f (dropWhile ws k s)) = includes (String n0 n') (f s).
Proof.
  revert s. induction k as [|k IH]; intros s; simpl; [reflexivity|].
  destruct (dropOne ws s) as [r|] eqn:E; [|reflexivity].
  destruct (dropOne_Some _ _ _ E) as (w & Hin & ->).
  rewrite IH, f_app. symmetry. apply includes_skip.
  rewrite forallb_forall in clear_of_n0.
  now apply negb_true_iff, clear_of_n0.
Qed.
End Needle.

Lemma dropWhile_includes_same (n0 : ascii) (n' : string) (ws : list string)
    (k : nat) (s : string) :
  forallb (fun w => negb (includes (String n0 "") w)) ws = true ->
  includes (String n0 n') (dropWhile ws k s) = includes (String n0 n') s.
Proof.
  intros H. exact (dropWhile_includes (fun x => x) (fun a b => eq_refl) n0 n' ws H k s).
Qed.

(** Trimming takes away neither [error] (in any case of letters) nor
    [ERR_]. *)
Lemma isErrorLine_trim (line : string) : isErrorLine (trim line) = isErrorLine line.
Proof.
  unfold isErrorLine, trim, trimEnd, trimStart. f_equal.
  - rewrite toLowerCase_rev. change "error" with (rev "rorre"). rewrite includes_rev.
    rewrite (dropWhile_includes toLowerCase toLowerCase_app "r" "orre") by reflexivity.
    rewrite toLowerCase_rev. change "rorre" with (rev "error"). rewrite includes_rev.
    apply (dropWhile_includes toLowerCase toLowerCase_app "e" "rror"). reflexivity.
  - change "ERR_" with (rev "_RRE"). rewrite includes_rev.
    rewrite (dropWhile_includes_same "_" "RRE") by reflexivity.
    change "_RRE" with (rev "ERR_"). rewrite includes_rev.
    apply (dropWhile_includes_same "E" "RR_"). reflexivity.
Qed.

End TrimFacts.

(** Every entry the errors function returns still holds an error marker
    and has no whitespace left around it: trimming took neither marker
    away, and trimming an entry again gives the entry. *)
Theorem error_entries_keep_their_marker (stderr : string) (w : world) :
  exists errors w',
    parseShellErrors (Some (JStr stderr)) w = (Ok errors, w')
    /\ Forall (fun entry => isErrorLine entry = true /\ Str.trim entry = entry) errors.
Proof.
  unfold parseShellErrors, bind, ret. rewrite collectErrors_spec. cbn [app].
  set (errors := map Str.trim (List.filter isErrorLine (Str.split "010" stderr))).
  assert (Forall (fun entry => isErrorLine entry = true /\ Str.trim entry = entry) errors) as HF.
  { subst errors. apply List.Forall_forall. intros entry Hin.
    apply in_map_iff in Hin as (line & <- & Hl). apply filter_In in Hl as (_ & Hl).
    split; [now rewrite TrimFacts.isErrorLine_trim | apply StrFacts.trim_idempotent]. }
  destruct (0 <? length errors)%nat.
  - unfold console_log. cbn beta iota.
    destruct (print_each_ok [Txt "•"] errors (print (log, [Txt "🛑 Detected Errors:"]) w))
      as (w' & -> & _ & _).
    now exists errors, w'.
  - unfold console_log. now eexists errors, _.
Qed.

Lemma clean_goes_in_order_witness :
  exists w1,
    executeTask (clean_items [JStr "App.jsx"]) home = (Settled (Ok None), w1)
    /\ executeTask (clean_items [JStr "App.jsx"; JNum "5"; JStr "src"]) home
       = (Settled (Throw (TypeError "ERR_INVALID_ARG_TYPE")), w1)
    /\ Fs.lookup (fs w1) ["home"; "App.jsx"] = None.
Proof.
  eexists. split; [reflexivity|]. split; [|reflexivity].
  apply (proj2 (clean_goes_in_order [JStr "App.jsx"] [JStr "src"] home) (JNum "5"));
    [discriminate | reflexivity].
Defined.

(** * The path of a contains task, and of the other tasks *)

(** After a clean task on one path has completed, nothing is left at the
    target that path resolves to. *)
Lemma clean_leaves_nothing (w : world) (p : string) (w1 : world) :
  executeTask (clean_task [p]) w = (Settled (Ok None), w1) ->
  Fs.existsSync (fs w1) (Path.resolve (currentDir w) p) = false.
Proof.
  unfold executeTask, clean_task, settle. simpl.
  unfold cleanUp, bind, path_resolve, existsSync, lift, update, console_log, ret. simpl.
  generalize (Path.resolve (currentDir w) p). intros target.
  destruct (Fs.existsSync (fs w) target) eqn:Hex; [|now intros [= <-]].
  pose proof Hex as Hex'. unfold Fs.existsSync in Hex'.
  apply andb_true_iff in Hex' as [Hv [n Hl]%bool_decide_eq_true].
  assert (forall t', Fs.remove (fs w) target = Some t' -> Fs.existsSync t' target = false)
    as Hgone.
  { intros t' Hr. unfold Fs.existsSync.
    pose proof (FsFrame.remove_gone _ _ _ [] Hr) as Hn. rewrite List.app_nil_r in Hn.
    rewrite Hn. apply andb_false_r. }
  unfold Fs.isDirectory. rewrite Hv, Hl. simpl.
  destruct n as [c0|es0]; simpl.
  - unfold Fs.unlinkSync. rewrite Hv, Hl. simpl.
    destruct (Fs.remove (fs w) target) as [t'|] eqn:Hr; simpl; [|discriminate].
    intros [= <-]. simpl. now apply Hgone.
  - destruct target as [|x rest].
    + unfold Fs.rmSync. rewrite Hv. simpl. discriminate.
    + destruct (FsFrame.remove_present (fs w) (x :: rest) _ ltac:(discriminate) Hl)
        as (t' & Hr).
      assert (Fs.rmSync (fs w) (x :: rest) = Ok t') as ->
        by (unfold Fs.rmSync; now rewrite Hv, Hr).
      simpl. intros [= <-]. simpl. now apply Hgone.
Qed.

(** C10: a contains task trims its path before resolving it, and nothing
    else decides its outcome: whatever the path, the task tests the file
    at the target its trimmed path resolves to (false when nothing is
    there, the search result when a regular file is, the refusal of [fs]
    otherwise), so a path and its trimmed form, [" App.jsx"] and
    ["App.jsx"] say, give the same result.  The read, write, edit, cd and
    clean tasks resolve their path as given, whatever it is: a read
    returns what is at that target, a write that completes has put the
    content there, an edit changes nothing when that target is missing
    and overwrites the regular file that is there, a cd that completes has
    made it currentPath, a clean that completes has left nothing there.
    [path.resolve] keeps the whitespace of a name, so the two targets
    differ for a name with a blank in front or behind: with
    [/home/App.jsx] on disk and [/home] current, contains finds the file
    under [" App.jsx"], ["App.jsx "] and [" App.jsx "], while a read finds
    nothing, a write creates a second file, an edit changes nothing, a cd
    lands in a directory named with the blank, and a clean leaves
    [App.jsx] in place. *)
Theorem contains_trims_its_path :
  (forall (w : world) (p searchText : string),
      executeTask (task "contains" p searchText) w
      = (Settled
           (if Fs.existsSync (fs w) (Path.resolve (currentDir w) (Str.trim p))
            then match Fs.readFileSync (fs w) (Path.resolve (currentDir w) (Str.trim p)) with
                 | Ok content => Ok (Some (JBool (Str.includes searchText content)))
                 | Throw e => Throw e
                 end
            else Ok (Some (JBool false))), w))
  /\ (forall (p : string) (searchText : option json) (w : world),
        fileContains (Some (JStr p)) searchText w
        = fileContains (Some (JStr (Str.trim p))) searchText w)
  /\ (forall (content : string) (w : world),
        executeTask (task "contains" " App.jsx" content) w
        = executeTask (task "contains" "App.jsx" content) w)
  /\ (forall (w : world) (p : string),
        fst (executeTask (task "read" p "") w)
        = Settled
            (if Fs.existsSync (fs w) (Path.resolve (currentDir w) p)
             then match Fs.readFileSync (fs w) (Path.resolve (currentDir w) p) with
                  | Ok content => Ok (Some (JStr content))
                  | Throw e => Throw e
                  end
             else Ok (Some JNull)))
  /\ (forall (w : world) (p data : string) (w1 : world),
        executeTask (task "write" p data) w = (Settled (Ok None), w1) ->
        Fs.lookup (fs w1) (Path.resolve (currentDir w) p) = Some (File data))
  /\ (forall (w : world) (p data : string),
        Fs.existsSync (fs w) (Path.resolve (currentDir w) p) = false ->
        fst (executeTask (task "edit" p data) w) = Settled (Ok None)
        /\ fs (snd (executeTask (task "edit" p data) w)) = fs w)
  /\ (forall (w : world) (p data old : string),
        Path.valid (Path.resolve (currentDir w) p) = true ->
        Fs.lookup (fs w) (Path.resolve (currentDir w) p) = Some (File old) ->
        fst (executeTask (task "edit" p data) w) = Settled (Ok None)
        /\ Fs.lookup (fs (snd (executeTask (task "edit" p data) w)))
             (Path.resolve (currentDir w) p) = Some (File data))
  /\ (forall (w : world) (p : string) (w1 : world),
        executeTask (task "cd" p "") w = (Settled (Ok None), w1) ->
        currentDir w1 = Path.resolve (currentDir w) p)
  /\ (forall (w : world) (p : string) (w1 : world),
        executeTask (clean_task [p]) w = (Settled (Ok None), w1) ->
        Fs.existsSync (fs w1) (Path.resolve (currentDir w) p) = false)
  /\ (forall (cur : list string) (name : string),
        plain cur -> Str.split "/" name = [name] -> plain [name] ->
        Path.resolve cur name = (cur ++ [name])%list)
  /\ (Path.resolve ["home"] " App.jsx" = ["home"; " App.jsx"]
      /\ Path.resolve ["home"] "App.jsx " = ["home"; "App.jsx "]
      /\ Path.resolve ["home"] (Str.trim " App.jsx ") = ["home"; "App.jsx"])
  /\ (fst (executeTask (task "contains" " App.jsx" "Hello") home)
      = Settled (Ok (Some (JBool true)))
      /\ fst (executeTask (task "contains" "App.jsx " "Hello") home)
         = Settled (Ok (Some (JBool true)))
      /\ fst (executeTask (task "contains" " App.jsx " "Hello") home)
         = Settled (Ok (Some (JBool true))))
  /\ (fst (executeTask (task "read" "App.jsx" "") home)
      = Settled (Ok (Some (JStr "Hello World")))
      /\ fst (executeTask (task "read" " App.jsx" "") home) = Settled (Ok (Some JNull))
      /\ fst (executeTask (task "read" "App.jsx " "") home) = Settled (Ok (Some JNull)))
  /\ (let w' := snd (executeTask (task "write" " App.jsx" "x") home) in
      Fs.lookup (fs w') ["home"; "App.jsx"] = Some (File "Hello World")
      /\ Fs.lookup (fs w') ["home"; " App.jsx"] = Some (File "x"))
  /\ (let w' := snd (executeTask (task "write" "App.jsx " "x") home) in
      Fs.lookup (fs w') ["home"; "App.jsx"] = Some (File "Hello World")
      /\ Fs.lookup (fs w') ["home"; "App.jsx "] = Some (File "x"))
  /\ (let w' := snd (executeTask (task "edit" " App.jsx" "x") home) in
      Fs.lookup (fs w') ["home"; "App.jsx"] = Some (File "Hello World")
      /\ Fs.lookup (fs w') ["home"; " App.jsx"] = None)
  /\ (let w' := snd (executeTask (task "edit" "App.jsx " "x") home) in
      Fs.lookup (fs w') ["home"; "App.jsx"] = Some (File "Hello World")
      /\ Fs.lookup (fs w') ["home"; "App.jsx "] = None)
  /\ (currentDir (snd (executeTask (task "cd" " src" "") home)) = ["home"; " src"]
      /\ currentDir (snd (executeTask (task "cd" "src " "") home)) = ["home"; "src "])
  /\ (Fs.lookup (fs (snd (executeTask (clean_task [" App.jsx"]) home))) ["home"; "App.jsx"]
      = Some (File "Hello World")
      /\ Fs.lookup (fs (snd (executeTask (clean_task ["App.jsx "]) home))) ["home"; "App.jsx"]
         = Some (File "Hello World")
      /\ Fs.lookup (fs (snd (executeTask (clean_task ["App.jsx"]) home))) ["home"; "App.jsx"]
         = None).
Proof.
  split.
  { intros w p searchText. unfold_tasks.
    destruct (Fs.existsSync (fs w) (Path.resolve (currentDir w) (Str.trim p)));
      [|reflexivity].
    now destruct (Fs.readFileSync (fs w) (Path.resolve (currentDir w) (Str.trim p))). }
  split.
  { intros p searchText w. unfold fileContains.
    now rewrite StrFacts.trim_idempotent. }
  split.
  { intros content w. unfold executeTask, task. simpl. unfold fileContains.
    reflexivity. }
  split.
  { intros w p. unfold_tasks.
    destruct (Fs.existsSync (fs w) (Path.resolve (currentDir w) p)); [|reflexivity].
    now destruct (Fs.readFileSync (fs w) (Path.resolve (currentDir w) p)). }
  split.
  { intros w p data w1. unfold_tasks. set (fullPath := Path.resolve (currentDir w) p).
    unfold Fs.writeFileSync.
    destruct (Fs.mkdirSync (fs w) (Path.dirname fullPath)) as [t1 [e|]];
      simpl; [discriminate|].
    destruct (Path.valid fullPath); simpl; [|discriminate].
    destruct (Fs.write t1 fullPath data) as [t2|] eqn:Hw; simpl; [|discriminate].
    intros [= <-]. simpl. now apply FsFacts.write_lookup with t1. }
  split.
  { intros w p data Hex. unfold_tasks. rewrite Hex. now split. }
  split.
  { intros w p data old Hv Hl. unfold_tasks.
    unfold Fs.existsSync, Fs.writeFileSync. rewrite Hv, Hl. simpl.
    destruct (FsFrame.write_existing _ _ _ data Hl) as (t' & Hw). rewrite Hw. simpl.
    split; [reflexivity|]. now apply FsFacts.write_lookup with (fs w). }
  split.
  { intros w p w1 H. unfold_in H. split_in H; now simplify_eq. }
  split.
  { exact clean_leaves_nothing. }
  split.
  { intros cur name Hcur Hsplit Hname. now apply resolve_child. }
  repeat split; vm_compute; reflexivity.
Qed.
